(** * christmas-tree: gesture classification, session controller,
      photo-card spring engine, particle interpolation and camera filter

    Shallow embedding of the TypeScript sources

    - [useHandGesture] hook (detectGesture, onResults),
    - [components/christmas/PhotoCards.tsx] (PhotoCardMesh.useFrame),
    - [components/christmas/ParticleSystem.tsx] (layout generators,
      ParticleSystem.useFrame),
    - the scene file (CameraController.useFrame).

    Numbers.  A JavaScript number is modelled as a real number: [+ - * /],
    [Math.sqrt], [Math.exp], [Math.sin], [Math.cos], [Math.min], [Math.max]
    and [Math.abs] are the functions of the same name on [R], and [<] is the
    order of [R].  Rounding, NaN and the infinities of IEEE doubles are not
    modelled.  A call of [Math.random()] is an explicit argument of the
    function that makes it.

    Exceptions.  Reading a property of [undefined] throws a TypeError; a
    function that can do so returns [option], [None] being the throw. *)

From Stdlib Require Import Reals Lra Lia List Bool Arith QArith Qreals.
Import ListNotations.

Local Open Scope R_scope.

(** ** JavaScript numbers and comparisons *)

Module Js.

Definition ltb (a b : R) : bool := if Rlt_dec a b then true else false.

(** [a[i]] followed by a property access: [None] when [a[i]] is undefined. *)
Definition index {A : Type} (a : list A) (i : nat) : option A := nth_error a i.

Definition bind {A B : Type} (m : option A) (k : A -> option B) : option B :=
  match m with
  | Some v => k v
  | None => None
  end.

End Js.

Notation "v <- m ;; k" := (Js.bind m (fun v => k))
  (at level 61, m at next level, right associativity).

(** ** hooks/useHandGesture *)

Module HandGesture.

Inductive GestureType : Type := none | fist | open | pinch | pointing.

Definition GestureType_eqb (a b : GestureType) : bool :=
  match a, b with
  | none, none | fist, fist | open, open | pinch, pinch
  | pointing, pointing => true
  | _, _ => false
  end.

Record Landmark : Type := mkLandmark { x : R; y : R; z : R }.

Record HandPosition : Type := mkHandPosition { hx : R; hy : R }.

Record HandGestureState : Type := mkHandGestureState {
  gesture : GestureType;
  handPosition : option HandPosition;
  pinchDistance : R;
  isTracking : bool
}.

(** The value given to [useState]. *)
Definition initialState : HandGestureState :=
  {| gesture := none; handPosition := None; pinchDistance := 1;
     isTracking := false |}.

Definition calculateFingerDistance (landmarks : list Landmark)
    (finger1 finger2 : nat) : option R :=
  p1 <- Js.index landmarks finger1 ;;
  p2 <- Js.index landmarks finger2 ;;
  Some (sqrt ((x p1 - x p2) ^ 2 + (y p1 - y p2) ^ 2 + (z p1 - z p2) ^ 2)).

(** [[a; b; c; d].filter(Boolean).length] *)
Definition countTrue (l : list bool) : nat := length (filter (fun b => b) l).

(** [landmarks] is [None] for a null or undefined argument. *)
Definition detectGesture (landmarks : option (list Landmark))
    : option GestureType :=
  match landmarks with
  | None => Some none
  | Some lm =>
    if (length lm <? 21)%nat then Some none else
    thumbTip <- Js.index lm 4 ;;
    indexTip <- Js.index lm 8 ;;
    middleTip <- Js.index lm 12 ;;
    ringTip <- Js.index lm 16 ;;
    pinkyTip <- Js.index lm 20 ;;
    indexMcp <- Js.index lm 5 ;;
    middleMcp <- Js.index lm 9 ;;
    ringMcp <- Js.index lm 13 ;;
    pinkyMcp <- Js.index lm 17 ;;
    pinchDist <- calculateFingerDistance lm 4 8 ;;
    if Js.ltb pinchDist 0.06 then Some pinch else
    let indexExtended := Js.ltb (y indexTip) (y indexMcp) in
    let middleExtended := Js.ltb (y middleTip) (y middleMcp) in
    let ringExtended := Js.ltb (y ringTip) (y ringMcp) in
    let pinkyExtended := Js.ltb (y pinkyTip) (y pinkyMcp) in
    let extendedCount :=
      countTrue [indexExtended; middleExtended; ringExtended; pinkyExtended] in
    if (3 <=? extendedCount)%nat then Some open else
    if (extendedCount <=? 1)%nat then Some fist else
    if indexExtended && negb middleExtended && negb ringExtended
       && negb pinkyExtended
    then Some pointing
    else Some none
  end.

(** [results.multiHandLandmarks] is [None] when the property is undefined. *)
Record Results : Type := mkResults {
  multiHandLandmarks : option (list (list Landmark))
}.

(** The hook's mutable cells as [onResults] sees them: the React state, the
    [lastGestureRef] ref, and the world [W] of the caller, on which the
    [onGestureChange] callback acts. *)
Record Hook (W : Type) : Type := mkHook {
  state : HandGestureState;
  lastGestureRef : GestureType;
  world : W
}.

Arguments mkHook {W} _ _ _.
Arguments state {W} _.
Arguments lastGestureRef {W} _.
Arguments world {W} _.

Section OnResults.

Context {W : Type}.

(** [onGestureChange] is optional: [None] when the option is not given. *)
Variable onGestureChange : option (GestureType -> W -> W).

(** [onGestureChange?.(gesture)] *)
Definition callOnGestureChange (g : GestureType) (w : W) : W :=
  match onGestureChange with
  | Some f => f g w
  | None => w
  end.

Definition onResults (results : Results) (h : Hook W) : option (Hook W) :=
  match multiHandLandmarks results with
  | Some (landmarks :: _) =>
    g <- detectGesture (Some landmarks) ;;
    palmCenter <- Js.index landmarks 9 ;;
    let handPosition' :=
      {| hx := 1 - x palmCenter; hy := y palmCenter |} in
    pinchDistance' <- calculateFingerDistance landmarks 4 8 ;;
    let h1 :=
      if negb (GestureType_eqb g (lastGestureRef h))
      then {| state := state h; lastGestureRef := g;
              world := callOnGestureChange g (world h) |}
      else h in
    Some {| state := {| gesture := g;
                        handPosition := Some handPosition';
                        pinchDistance := pinchDistance';
                        isTracking := true |};
            lastGestureRef := lastGestureRef h1;
            world := world h1 |}
  | _ =>
    Some {| state := {| gesture := gesture (state h);
                        handPosition := None;
                        pinchDistance := pinchDistance (state h);
                        isTracking := false |};
            lastGestureRef := lastGestureRef h;
            world := world h |}
  end.

(** The tracker calls [onResults] once per frame; a throw ends the run. *)
Fixpoint feed (frames : list Results) (h : Hook W) : option (Hook W) :=
  match frames with
  | [] => Some h
  | r :: rest => h' <- onResults r h ;; feed rest h'
  end.

End OnResults.

(** The hook as mounted: initial state, [lastGestureRef = 'none']. *)
Definition mount {W : Type} (w : W) : Hook W :=
  {| state := initialState; lastGestureRef := none; world := w |}.

(** A callback that appends each gesture it is called with to a log. *)
Definition recorder : option (GestureType -> list GestureType -> list GestureType) :=
  Some (fun g log => log ++ [g]).

End HandGesture.

(** ** three.js vectors

    [THREE.Vector3] belongs to the three.js library; the operations the
    sources call are given here with the meaning three.js documents. *)

Module THREE.

Record Vector3 : Type := mkVector3 { x : R; y : R; z : R }.

Definition subVectors (a b : Vector3) : Vector3 :=
  {| x := x a - x b; y := y a - y b; z := z a - z b |}.

Definition multiplyScalar (v : Vector3) (s : R) : Vector3 :=
  {| x := x v * s; y := y v * s; z := z v * s |}.

Definition add (a b : Vector3) : Vector3 :=
  {| x := x a + x b; y := y a + y b; z := z a + z b |}.

Definition length (v : Vector3) : R :=
  sqrt (x v * x v + y v * y v + z v * z v).

Definition distanceTo (a b : Vector3) : R :=
  sqrt ((x a - x b) * (x a - x b) + (y a - y b) * (y a - y b)
        + (z a - z b) * (z a - z b)).

End THREE.

(** [TreeState] of types/christmas *)
Inductive TreeState : Type := tree | galaxy.

Definition TreeState_eqb (a b : TreeState) : bool :=
  match a, b with
  | tree, tree | galaxy, galaxy => true
  | _, _ => false
  end.

(** ** components/christmas/PhotoCards.tsx: PhotoCardMesh *)

Module PhotoCards.

Import THREE.

Record SpringState : Type := mkSpringState {
  position : Vector3;
  velocity : Vector3;
  scale : R;
  scaleVelocity : R
}.

Definition SPRING_STIFFNESS : R := 25.
Definition SPRING_DAMPING : R := 8.
Definition SCALE_STIFFNESS : R := 30.
Definition SCALE_DAMPING : R := 10.

(** The group behind [meshRef]: its rendered position and scale.  Its
    orientation ([lookAt]) is left out. *)
Record Object3D : Type := mkObject3D {
  mesh_position : Vector3;
  mesh_scale : Vector3
}.

Record Props : Type := mkProps {
  treePosition : Vector3;
  galaxyPosition : Vector3;
  state : TreeState;
  isFocused : bool
}.

(** The refs of one PhotoCardMesh; [meshRef] is [None] while unmounted. *)
Record Refs : Type := mkRefs {
  meshRef : option Object3D;
  timeRef : R;
  springRef : SpringState;
  needsUpdateRef : bool;
  prevStateRef : TreeState;
  prevFocusedRef : bool;
  frameCountRef : nat
}.

Definition targetPos (p : Props) : Vector3 :=
  if isFocused p then {| x := 0; y := 0; z := 0.8 |}
  else match state p with
       | tree => treePosition p
       | galaxy => galaxyPosition p
       end.

Definition targetScale (p : Props) : R := if isFocused p then 5 else 0.4.

(** The test of the early return: position error, scale error and speed
    all under 0.01. *)
Definition stable (p : Props) (spring : SpringState) : bool :=
  let positionDelta := distanceTo (position spring) (targetPos p) in
  let scaleDelta := Rabs (scale spring - targetScale p) in
  let velocityMag := length (velocity spring) in
  Js.ltb positionDelta 0.01 && Js.ltb scaleDelta 0.01
  && Js.ltb velocityMag 0.01.

(** The spring physics of one frame, for position and for scale. *)
Definition integrate (p : Props) (dt : R) (spring : SpringState)
    : SpringState :=
  let displacement := subVectors (position spring) (targetPos p) in
  let springForce := multiplyScalar displacement (- SPRING_STIFFNESS) in
  let dampingForce := multiplyScalar (velocity spring) (- SPRING_DAMPING) in
  let acceleration := add springForce dampingForce in
  let velocity' := add (velocity spring) (multiplyScalar acceleration dt) in
  let position' := add (position spring) (multiplyScalar velocity' dt) in
  let scaleDisplacement := scale spring - targetScale p in
  let scaleSpringForce := - SCALE_STIFFNESS * scaleDisplacement in
  let scaleDampingForce := - SCALE_DAMPING * scaleVelocity spring in
  let scaleAcceleration := scaleSpringForce + scaleDampingForce in
  let scaleVelocity' := scaleVelocity spring + scaleAcceleration * dt in
  let scale' := scale spring + scaleVelocity' * dt in
  {| position := position'; velocity := velocity';
     scale := scale'; scaleVelocity := scaleVelocity' |}.

(** The callback given to [useFrame], called with the frame's [delta]. *)
Definition useFrame (p : Props) (delta : R) (r : Refs) : Refs :=
  match meshRef r with
  | None => r
  | Some mesh =>
    let frameCount := S (frameCountRef r) in
    let changed :=
      negb (TreeState_eqb (prevStateRef r) (state p))
      || negb (Bool.eqb (prevFocusedRef r) (isFocused p)) in
    let needsUpdate := if changed then true else needsUpdateRef r in
    let prevState := if changed then state p else prevStateRef r in
    let prevFocused := if changed then isFocused p else prevFocusedRef r in
    let spring := springRef r in
    let dt := Rmin delta 0.033 in
    let time := timeRef r + dt in
    if stable p spring then
      let mesh' :=
        if (frameCount mod 4 =? 0)%nat && negb (isFocused p)
        then {| mesh_position :=
                  {| x := x (mesh_position mesh);
                     y := y (position spring) + sin (time * 0.5) * 0.005;
                     z := z (mesh_position mesh) |};
                mesh_scale := mesh_scale mesh |}
        else mesh in
      {| meshRef := Some mesh'; timeRef := time; springRef := spring;
         needsUpdateRef := false; prevStateRef := prevState;
         prevFocusedRef := prevFocused; frameCountRef := frameCount |}
    else
      let spring' := integrate p dt spring in
      let bob := if isFocused p then 0 else sin (time * 0.5) * 0.005 in
      let mesh' :=
        {| mesh_position :=
             {| x := x (position spring');
                y := y (position spring') + bob;
                z := z (position spring') |};
           mesh_scale :=
             {| x := scale spring'; y := scale spring'; z := 1 |} |} in
      {| meshRef := Some mesh'; timeRef := time; springRef := spring';
         needsUpdateRef := needsUpdate; prevStateRef := prevState;
         prevFocusedRef := prevFocused; frameCountRef := frameCount |}
  end.

(** Successive frames under the same props, one [delta] per frame. *)
Fixpoint frames (p : Props) (deltas : list R) (r : Refs) : Refs :=
  match deltas with
  | [] => r
  | delta :: rest => frames p rest (useFrame p delta r)
  end.

(** The refs after mount: the spring rests at the tree position with scale
    0.4; the group has [position={treePosition}], [scale={[0.5, 0.5, 1]}]. *)
Definition mounted (p : Props) (time0 : R) : Refs :=
  {| meshRef := Some {| mesh_position := treePosition p;
                        mesh_scale := {| x := 0.5; y := 0.5; z := 1 |} |};
     timeRef := time0;
     springRef := {| position := treePosition p;
                     velocity := {| x := 0; y := 0; z := 0 |};
                     scale := 0.4; scaleVelocity := 0 |};
     needsUpdateRef := true; prevStateRef := state p;
     prevFocusedRef := isFocused p; frameCountRef := 0 |}.

End PhotoCards.

(** ** components/christmas/ParticleSystem.tsx *)

Module ParticleSystem.

(** A [[number, number, number]] tuple. *)
Definition Triple : Type := (R * R * R)%type.

Definition t0 (v : Triple) : R := fst (fst v).
Definition t1 (v : Triple) : R := snd (fst v).
Definition t2 (v : Triple) : R := snd v.

(** The azimuth of [generateOrnamentPosition]; [random] is the value of its
    one [Math.random()] call, a number in [0, 1). *)
Definition ornamentAngle (index : nat) (random : R) : R :=
  INR index * PI * 2.4 + random * 0.5.

Definition generateOrnamentPosition (index total : nat) (random : R)
    : Triple :=
  let height := 7 in
  let maxRadius := 3.2 in
  let t := (INR index + 0.5) / INR total in
  let y := t * height - height / 2 in
  let layerRadius := maxRadius * (1 - t * 0.9) in
  let angle := ornamentAngle index random in
  (cos angle * layerRadius * 0.85, y, sin angle * layerRadius * 0.85).

Record Particle : Type := mkParticle {
  treePosition : Triple;
  galaxyPosition : Triple;
  scale : R;
  phase : R;
  speed : R;
  delay : R
}.

(** The end value of the tween that [useEffect] starts on a change of
    [state]: [progress: state === 'tree' ? 0 : 1]. *)
Definition tweenTarget (state : TreeState) : R :=
  match state with
  | tree => 0
  | galaxy => 1
  end.

Definition staggeredProgress (progress : R) (particle : Particle) : R :=
  Rmax 0 (Rmin 1 (progress * 1.5 - delay particle * 0.5)).

Definition smoothstep (s : R) : R := s * s * (3 - 2 * s).

(** The interpolated [x], [y], [z] of the loop body. *)
Definition interpolate (progress : R) (particle : Particle) : Triple :=
  let smoothProgress := smoothstep (staggeredProgress progress particle) in
  let tp := treePosition particle in
  let gp := galaxyPosition particle in
  (t0 tp + (t0 gp - t0 tp) * smoothProgress,
   t1 tp + (t1 gp - t1 tp) * smoothProgress,
   t2 tp + (t2 gp - t2 tp) * smoothProgress).

(** What the loop body writes into [dummy] before [setMatrixAt]. *)
Record Instance : Type := mkInstance {
  inst_position : Triple;
  inst_rotation_y : R;
  inst_scale : R
}.

Definition instanceOf (time progress : R) (particle : Particle) : Instance :=
  let xyz := interpolate progress particle in
  let breathe := sin (time * speed particle + phase particle) * 0.02 in
  let scalePulse := 1 + sin (time * 2 + phase particle) * 0.1 in
  {| inst_position := (t0 xyz, t1 xyz + breathe, t2 xyz);
     inst_rotation_y := time * 0.3 + phase particle;
     inst_scale := scale particle * scalePulse |}.

(** The refs of the component: the instance matrices of the mesh ([None]
    while unmounted), the clock, and the tweened progress. *)
Record Refs : Type := mkRefs {
  meshRef : option (list Instance);
  timeRef : R;
  progress : R
}.

Definition useFrame (particleData : list Particle) (delta : R) (r : Refs)
    : Refs :=
  match meshRef r with
  | None => r
  | Some _ =>
    let time := timeRef r + delta in
    {| meshRef := Some (map (instanceOf time (progress r)) particleData);
       timeRef := time;
       progress := progress r |}
  end.

End ParticleSystem.

(** ** The scene: CameraController *)

Module Scene.

Import THREE.

Record Rotation : Type := mkRotation { rx : R; ry : R }.

Record Point2 : Type := mkPoint2 { px : R; py : R }.

Record Props : Type := mkProps {
  state : TreeState;
  orbitRotation : Rotation;
  handPosition : option Point2
}.

Definition baseDistance (p : Props) : R :=
  match state p with
  | tree => 12
  | galaxy => 18
  end.

Definition target (p : Props) : Vector3 :=
  let targetXY :=
    match handPosition p, state p with
    | Some hand, galaxy => ((px hand - 0.5) * 20, (0.5 - py hand) * 10 + 2)
    | _, _ => (sin (ry (orbitRotation p)) * baseDistance p,
               sin (rx (orbitRotation p)) * 5 + 2)
    end in
  {| x := fst targetXY; y := snd targetXY;
     z := cos (ry (orbitRotation p)) * baseDistance p |}.

Definition smoothFactor (delta : R) : R := 1 - exp (- 4 * delta).

(** The callback given to [useFrame]: the new value of [positionRef], which
    is also copied to the camera. *)
Definition useFrame (p : Props) (delta : R) (positionRef : Vector3)
    : Vector3 :=
  let tg := target p in
  let k := smoothFactor delta in
  {| x := x positionRef + (x tg - x positionRef) * k;
     y := y positionRef + (y tg - y positionRef) * k;
     z := z positionRef + (z tg - z positionRef) * k |}.

End Scene.

(** ** Synthetic hands

    A 21-point hand for the scenarios of the classifier and of the session
    controller: the four knuckles (5, 9, 13, 17) at height 0.5, each
    fingertip (8, 12, 16, 20) above its knuckle (0.3) when the finger is
    extended and below it (0.7) when it is not, the thumb tip (4) away from
    the index tip. *)

Module Fixtures.

Import HandGesture.

Definition tipY (extended : bool) : R := if extended then 0.3 else 0.7.

Definition pt (px py : R) : Landmark := {| x := px; y := py; z := 0 |}.

Definition syntheticHand (index middle ring pinky : bool) : list Landmark :=
  [ pt 0.5 0.9;
    pt 0.35 0.8; pt 0.3 0.7; pt 0.25 0.65; pt 0.2 0.6;
    pt 0.4 0.5; pt 0.4 0.5; pt 0.4 0.5; pt 0.4 (tipY index);
    pt 0.5 0.5; pt 0.5 0.5; pt 0.5 0.5; pt 0.5 (tipY middle);
    pt 0.6 0.5; pt 0.6 0.5; pt 0.6 0.5; pt 0.6 (tipY ring);
    pt 0.7 0.5; pt 0.7 0.5; pt 0.7 0.5; pt 0.7 (tipY pinky) ].

Definition handFrame (lm : list Landmark) : Results :=
  {| multiHandLandmarks := Some [lm] |}.

(** A hook that has seen a fist: the state the no-hand scenario starts
    from. *)
Definition trackingFist : Hook (list GestureType) :=
  {| state := {| gesture := fist;
                 handPosition := Some {| hx := 0.5; hy := 0.5 |};
                 pinchDistance := 0.3; isTracking := true |};
     lastGestureRef := fist;
     world := [fist] |}.

Definition fistFrame : Results :=
  handFrame (syntheticHand false false false false).

Definition openFrame : Results :=
  handFrame (syntheticHand true true true true).

(** A photo card at the origin of the tree layout whose galaxy position is
    one unit along x, with the scene in the galaxy state: a card that has
    to move. *)
Definition cardToGalaxy : PhotoCards.Props :=
  {| PhotoCards.treePosition := THREE.mkVector3 0 0 0;
     PhotoCards.galaxyPosition := THREE.mkVector3 1 0 0;
     PhotoCards.state := galaxy;
     PhotoCards.isFocused := false |}.

(** The same card with the scene in the tree state: a card at rest. *)
Definition cardAtRest : PhotoCards.Props :=
  {| PhotoCards.treePosition := THREE.mkVector3 0 0 0;
     PhotoCards.galaxyPosition := THREE.mkVector3 1 0 0;
     PhotoCards.state := tree;
     PhotoCards.isFocused := false |}.

End Fixtures.

(** ** Specification-side definitions *)

Module Spec.

Import HandGesture.

(** The label the classifier gives a hand ([none] stands in for a throw,
    which [detectGesture_total] excludes). *)
Definition classOf (lm : list Landmark) : GestureType :=
  match detectGesture (Some lm) with
  | Some g => g
  | None => none
  end.

(** The labels of a sequence that differ from the label before them,
    [last] being the label before the first. *)
Fixpoint changes (last : GestureType) (gs : list GestureType)
    : list GestureType :=
  match gs with
  | [] => []
  | g :: rest =>
    if GestureType_eqb g last then changes g rest else g :: changes g rest
  end.

End Spec.

(** The damping ratio of a unit-mass spring: damping over the critical
    damping [2 * sqrt stiffness]. *)
Module Damping.

Definition dampingRatio (stiffness damping : R) : R :=
  damping / (2 * sqrt stiffness).

End Damping.

(** ** The position spring along x, on rationals

    The card that has to move ([Fixtures.cardToGalaxy]: from the origin to
    one unit along x) stays on the x axis with its scale at rest.  Its x and
    its speed over frames of 0.033 are followed here on rationals, where
    they compute; [runQ_sound] relates the run to [PhotoCards.frames]. *)

Module SpringQ.

Local Open Scope Q_scope.

Definition dtQ : Q := 33 # 1000.

(** [PhotoCards.integrate] on the x axis, towards x = 1. *)
Definition stepQ (s : Q * Q) : Q * Q :=
  let acceleration := (- (25 # 1)) * (fst s - 1) + (- (8 # 1)) * snd s in
  let v' := Qred (snd s + acceleration * dtQ) in
  let x' := Qred (fst s + v' * dtQ) in
  (x', v').

(** Enough for [PhotoCards.stable] to be false: the position error or the
    speed is 0.01 or more (compared by their squares). *)
Definition movingQ (s : Q * Q) : bool :=
  Qle_bool (1 # 10000) ((fst s - 1) * (fst s - 1))
  || Qle_bool (1 # 10000) (snd s * snd s).

(** [n] frames, each of them integrating; [None] if one might not. *)
Fixpoint runQ (n : nat) (s : Q * Q) : option (Q * Q) :=
  match n with
  | O => Some s
  | S n' => if movingQ s then runQ n' (stepQ s) else None
  end.

Local Close Scope Q_scope.

(** The spring is on the x axis at [s], with its scale at rest. *)
Definition along_x (spring : PhotoCards.SpringState) (s : Q * Q) : Prop :=
  PhotoCards.position spring = THREE.mkVector3 (Q2R (fst s)) 0 0
  /\ PhotoCards.velocity spring = THREE.mkVector3 (Q2R (snd s)) 0 0
  /\ PhotoCards.scale spring = 0.4
  /\ PhotoCards.scaleVelocity spring = 0.

End SpringQ.

(** ** More fixtures and specification-side definitions of the session *)

Module SessionSpec.

Import HandGesture.

(** The labels of the frames that carry a hand, in order; a frame with no
    hand has none. *)
Definition handLabels (frames : list Results) : list GestureType :=
  flat_map (fun r => match multiHandLandmarks r with
                     | Some (lm :: _) => [Spec.classOf lm]
                     | _ => []
                     end) frames.

(** No two neighbours of the list are equal. *)
Fixpoint noRepeat (last : GestureType) (gs : list GestureType) : Prop :=
  match gs with
  | [] => True
  | g :: rest => g <> last /\ noRepeat g rest
  end.

(** A hand with every finger extended whose thumb tip touches the index
    tip. *)
Definition pinchedHand : list Landmark :=
  [ Fixtures.pt 0.5 0.9;
    Fixtures.pt 0.35 0.8; Fixtures.pt 0.3 0.7; Fixtures.pt 0.25 0.65;
    Fixtures.pt 0.41 0.3;
    Fixtures.pt 0.4 0.5; Fixtures.pt 0.4 0.5; Fixtures.pt 0.4 0.5;
    Fixtures.pt 0.4 0.3;
    Fixtures.pt 0.5 0.5; Fixtures.pt 0.5 0.5; Fixtures.pt 0.5 0.5;
    Fixtures.pt 0.5 0.3;
    Fixtures.pt 0.6 0.5; Fixtures.pt 0.6 0.5; Fixtures.pt 0.6 0.5;
    Fixtures.pt 0.6 0.3;
    Fixtures.pt 0.7 0.5; Fixtures.pt 0.7 0.5; Fixtures.pt 0.7 0.5;
    Fixtures.pt 0.7 0.3 ].

(** A result whose hand has only twelve points. *)
Definition shortHand : list Landmark :=
  firstn 12 (Fixtures.syntheticHand true true true true).

End SessionSpec.

(** ** hooks/useHandGesture: requestCameraPermission and the cleanup *)

Module Permission.

Inductive CameraPermission : Type := pending | granted | denied | prompt.

(** The awaited calls of [requestCameraPermission], in program order. *)
Inductive Await : Type :=
  getUserMedia | importHands | importCameraUtils | cameraStart.

Definition Await_eqb (a b : Await) : bool :=
  match a, b with
  | getUserMedia, getUserMedia | importHands, importHands
  | importCameraUtils, importCameraUtils | cameraStart, cameraStart => true
  | _, _ => false
  end.

(** What the environment does: the first awaited call that rejects, or
    [None] when all of them resolve. *)
Definition Outcome : Type := option Await.

Definition rejects (o : Outcome) (a : Await) : bool :=
  match o with
  | Some b => Await_eqb a b
  | None => false
  end.

(** The writes of the function, in the order it makes them. *)
Inductive Effect : Type :=
  | setIsInitializing (b : bool)
  | setCameraPermission (p : CameraPermission)
  | stopTestStream
  | appendVideo
  | attachTracker
  | createCamera
  | cameraStarted.

(** The [try] block: its writes, and whether it threw. *)
Definition tryBlock (o : Outcome) : list Effect * bool :=
  if rejects o getUserMedia then ([], true) else
  let afterGrant := [stopTestStream; setCameraPermission granted] in
  if rejects o importHands then (afterGrant, true) else
  if rejects o importCameraUtils then (afterGrant, true) else
  let afterSetup := afterGrant ++ [appendVideo; attachTracker; createCamera] in
  if rejects o cameraStart then (afterSetup, true) else
  (afterSetup ++ [cameraStarted], false).

(** [isInitializing] is the state the callback closes over when called. *)
Definition requestCameraPermission (isInitializing : bool) (o : Outcome)
    : list Effect :=
  if isInitializing then [] else
  let body := tryBlock o in
  [setIsInitializing true; setCameraPermission pending]
  ++ fst body
  ++ (if snd body then [setCameraPermission denied] else [])
  ++ [setIsInitializing false].

Inductive CameraState : Type := created | started | stopped.

(** The state and refs of the hook that the function and the cleanup
    touch; [videos] counts the video elements in the document. *)
Record Session : Type := mkSession {
  cameraPermission : CameraPermission;
  isInitializing : bool;
  videoRef : bool;
  videos : nat;
  handsRef : bool;
  cameraRef : option CameraState
}.

Definition initial : Session :=
  {| cameraPermission := prompt; isInitializing := false; videoRef := false;
     videos := 0; handsRef := false; cameraRef := None |}.

Definition apply (s : Session) (e : Effect) : Session :=
  match e with
  | setIsInitializing b =>
    {| cameraPermission := cameraPermission s; isInitializing := b;
       videoRef := videoRef s; videos := videos s; handsRef := handsRef s;
       cameraRef := cameraRef s |}
  | setCameraPermission p =>
    {| cameraPermission := p; isInitializing := isInitializing s;
       videoRef := videoRef s; videos := videos s; handsRef := handsRef s;
       cameraRef := cameraRef s |}
  | stopTestStream => s
  | appendVideo =>
    {| cameraPermission := cameraPermission s;
       isInitializing := isInitializing s;
       videoRef := true; videos := S (videos s); handsRef := handsRef s;
       cameraRef := cameraRef s |}
  | attachTracker =>
    {| cameraPermission := cameraPermission s;
       isInitializing := isInitializing s;
       videoRef := videoRef s; videos := videos s; handsRef := true;
       cameraRef := cameraRef s |}
  | createCamera =>
    {| cameraPermission := cameraPermission s;
       isInitializing := isInitializing s;
       videoRef := videoRef s; videos := videos s; handsRef := handsRef s;
       cameraRef := Some created |}
  | cameraStarted =>
    {| cameraPermission := cameraPermission s;
       isInitializing := isInitializing s;
       videoRef := videoRef s; videos := videos s; handsRef := handsRef s;
       cameraRef := Some started |}
  end.

(** One call, from the state it is made in to the state it leaves. *)
Definition request (o : Outcome) (s : Session) : Session :=
  fold_left apply (requestCameraPermission (isInitializing s) o) s.

(** The cleanup of the unmount effect: [cameraRef.current.stop()] and
    [videoRef.current.remove()], each when its ref is set. *)
Definition cleanup (s : Session) : Session :=
  {| cameraPermission := cameraPermission s;
     isInitializing := isInitializing s;
     videoRef := videoRef s;
     videos := if videoRef s then Nat.pred (videos s) else videos s;
     handsRef := handsRef s;
     cameraRef := match cameraRef s with
                  | Some _ => Some stopped
                  | None => None
                  end |}.

(** The call reaches the creation of the video element. *)
Definition appendsVideo (o : Outcome) : Prop :=
  o = None \/ o = Some cameraStart.

End Permission.

(** ** components/christmas/PhotoCards.tsx: layout and the PhotoCards
       component *)

Module PhotoLayout.

Import ParticleSystem.

Definition generateTreePhotoPosition (index total : nat) : Triple :=
  let height := 7 in
  let maxRadius := 2.8 in
  let t := (INR index + 0.5) / INR total in
  let y := t * height - height / 2 + 0.5 in
  let radius := maxRadius * (1 - t * 0.85) in
  let angle := t * PI * 10 + INR index * PI * 0.5 in
  (cos angle * radius, y, sin angle * radius).

(** [random1], [random2], [random3] are the three [Math.random()] draws,
    in the order of the calls. *)
Definition generateGalaxyPhotoPosition (random1 random2 random3 : R)
    : Triple :=
  let radius := 4 + random1 * 6 in
  let theta := random2 * PI * 2 in
  let phi := acos (2 * random3 - 1) in
  (radius * sin phi * cos theta,
   radius * sin phi * sin theta * 0.5,
   radius * cos phi).

Section Component.

(** The type of a photo URL, and the twelve cached placeholders of
    [getDefaultPhotos]. *)
Variable Url : Type.
Variable placeholders : list Url.

Record PhotoData : Type := mkPhotoData {
  url : Url;
  treePosition : Triple;
  galaxyPosition : Triple
}.

(** [photos && photos.length > 0 ? photos : getDefaultPhotos()] *)
Definition photoUrls (photos : option (list Url)) : list Url :=
  match photos with
  | Some (p :: ps) => p :: ps
  | _ => placeholders
  end.

(** [a.map((v, i) => f(v, i))], from index [i]. *)
Fixpoint mapi {A B : Type} (f : A -> nat -> B) (i : nat) (l : list A)
    : list B :=
  match l with
  | [] => []
  | v :: rest => f v i :: mapi f (S i) rest
  end.

(** The [useMemo] of the component; [draws i] holds the three random draws
    of card [i]. *)
Definition photoData (photos : option (list Url))
    (draws : nat -> R * R * R) : list PhotoData :=
  let urls := photoUrls photos in
  mapi (fun u i =>
          {| url := u;
             treePosition :=
               generateTreePhotoPosition i (Nat.min (length urls) 12);
             galaxyPosition :=
               generateGalaxyPhotoPosition (fst (fst (draws i)))
                 (snd (fst (draws i))) (snd (draws i)) |})
       0 (firstn 12 urls).

(** The props each [PhotoCardMesh] is rendered with. *)
Definition cardProps (state : TreeState) (focusedIndex : option nat)
    (photos : option (list Url)) (draws : nat -> R * R * R)
    : list PhotoCards.Props :=
  mapi (fun photo i =>
          {| PhotoCards.treePosition :=
               THREE.mkVector3 (t0 (treePosition photo))
                 (t1 (treePosition photo)) (t2 (treePosition photo));
             PhotoCards.galaxyPosition :=
               THREE.mkVector3 (t0 (galaxyPosition photo))
                 (t1 (galaxyPosition photo)) (t2 (galaxyPosition photo));
             PhotoCards.state := state;
             PhotoCards.isFocused :=
               match focusedIndex with
               | Some k => (k =? i)%nat
               | None => false
               end |})
       0 (photoData photos draws).

End Component.

End PhotoLayout.

(** ** Energy of the photo-card springs (specification side) *)

Module SpringEnergy.

Import THREE PhotoCards.

Definition normSquared (v : Vector3) : R := x v * x v + y v * y v + z v * z v.

(** Twice the mechanical energy of the unit-mass position spring:
    stiffness times the squared distance to the target, plus the squared
    speed. *)
Definition positionEnergy (p : Props) (s : SpringState) : R :=
  SPRING_STIFFNESS * normSquared (subVectors (position s) (targetPos p))
  + normSquared (velocity s).

Definition scaleEnergy (p : Props) (s : SpringState) : R :=
  SCALE_STIFFNESS * ((scale s - targetScale p) * (scale s - targetScale p))
  + scaleVelocity s * scaleVelocity s.

End SpringEnergy.

(** ** components/christmas/ParticleSystem.tsx: the other generators and
       populations *)

Module JsMath.

(** [Math.pow(base, exponent)] for a base that is not negative and a
    positive exponent; [Math.pow(0, exponent)] is 0. *)
Definition pow (base exponent : R) : R :=
  if Req_dec_T base 0 then 0 else Rpower base exponent.

End JsMath.

Module Layout.

Import ParticleSystem.

(** [random1] and [random2] are the two [Math.random()] draws, in order. *)
Definition generateTreePosition (index total : nat) (random1 random2 : R)
    : Triple :=
  let height := 8 in
  let maxRadius := 3.5 in
  let t := JsMath.pow (INR index / INR total) 0.8 in
  let y := t * height - height / 2 in
  let layerRadius := maxRadius * (1 - t * 0.95) in
  let angle := random1 * PI * 2 in
  let radiusVariation := 0.7 + random2 * 0.3 in
  let radius := layerRadius * radiusVariation in
  (cos angle * radius, y, sin angle * radius).

Definition generateGalaxyPosition (random1 random2 random3 : R) : Triple :=
  let radius := 5 + random1 * 10 in
  let theta := random2 * PI * 2 in
  let phi := acos (2 * random3 - 1) in
  (radius * sin phi * cos theta,
   radius * sin phi * sin theta * 0.5,
   radius * cos phi).

End Layout.

Module OrnamentBalls.

Import ParticleSystem.

Record Ornament : Type := mkOrnament {
  treePosition : Triple;
  galaxyPosition : Triple;
  scale : R;
  delay : R
}.

Record Instance : Type := mkInstance {
  inst_position : Triple;
  inst_scale : R
}.

Definition localProgress (progress delay : R) : R :=
  Rmax 0 (Rmin 1 (progress * 1.3 - delay * 0.3)).

Definition instanceOf (progress : R) (ornament : Ornament) : Instance :=
  let p := localProgress progress (delay ornament) in
  let smooth := p * p * (3 - 2 * p) in
  let tp := treePosition ornament in
  let gp := galaxyPosition ornament in
  {| inst_position := (t0 tp + (t0 gp - t0 tp) * smooth,
                       t1 tp + (t1 gp - t1 tp) * smooth,
                       t2 tp + (t2 gp - t2 tp) * smooth);
     inst_scale := scale ornament |}.

(** The callback given to [useFrame]: the instance matrices of the mesh,
    [None] while unmounted. *)
Definition useFrame (ornamentData : list Ornament) (progress : R)
    (meshRef : option (list Instance)) : option (list Instance) :=
  match meshRef with
  | None => None
  | Some _ => Some (map (instanceOf progress) ornamentData)
  end.

End OrnamentBalls.

Module GemOrnaments.

Import ParticleSystem.

Record Gem : Type := mkGem {
  treePosition : Triple;
  galaxyPosition : Triple;
  scale : R;
  rotSpeed : R;
  delay : R
}.

(** What is written into [dummy]: position, the two rotation angles that
    the loop sets, and the scale. *)
Record Instance : Type := mkInstance {
  inst_position : Triple;
  inst_rotation_a : R;
  inst_rotation_b : R;
  inst_scale : R
}.

Definition position (progress : R) (gem : Gem) : Triple :=
  let p := Rmax 0 (Rmin 1 (progress * 1.3 - delay gem * 0.3)) in
  let smooth := p * p * (3 - 2 * p) in
  let tp := treePosition gem in
  let gp := galaxyPosition gem in
  (t0 tp + (t0 gp - t0 tp) * smooth,
   t1 tp + (t1 gp - t1 tp) * smooth,
   t2 tp + (t2 gp - t2 tp) * smooth).

(** A cube: [rotation.x] and [rotation.y]. *)
Definition cubeInstance (time progress : R) (cube : Gem) : Instance :=
  {| inst_position := position progress cube;
     inst_rotation_a := time * rotSpeed cube;
     inst_rotation_b := time * rotSpeed cube * 1.3;
     inst_scale := scale cube |}.

(** An icosahedron: [rotation.x] and [rotation.z]. *)
Definition icoInstance (time progress : R) (ico : Gem) : Instance :=
  {| inst_position := position progress ico;
     inst_rotation_a := time * rotSpeed ico * 0.7;
     inst_rotation_b := time * rotSpeed ico;
     inst_scale := scale ico |}.

Record Refs : Type := mkRefs {
  cubeRef : option (list Instance);
  icoRef : option (list Instance);
  timeRef : R;
  progress : R
}.

Definition useFrame (cubeData icoData : list Gem) (delta : R) (r : Refs)
    : Refs :=
  let time := timeRef r + delta in
  {| cubeRef := match cubeRef r with
                | Some _ => Some (map (cubeInstance time (progress r)) cubeData)
                | None => None
                end;
     icoRef := match icoRef r with
               | Some _ => Some (map (icoInstance time (progress r)) icoData)
               | None => None
               end;
     timeRef := time;
     progress := progress r |}.

End GemOrnaments.

Module TetrahedronSpiral.

Import ParticleSystem.

Definition tetraCount : nat := 180.

Record Tetra : Type := mkTetra {
  treePosition : Triple;
  galaxyPosition : Triple;
  angle : R;
  delay : R
}.

(** Element [i] of [tetraData]; [galaxy] is its [generateGalaxyPosition()]. *)
Definition tetra (i : nat) (galaxy : Triple) : Tetra :=
  let height := 7 in
  let maxRadius := 3.0 in
  let t := INR i / INR tetraCount in
  let y := t * height - height / 2 + 0.3 in
  let layerRadius := maxRadius * (1 - t * 0.88) + 0.15 in
  let angle := t * PI * 6 in
  {| treePosition := (cos angle * layerRadius, y, sin angle * layerRadius);
     galaxyPosition := galaxy;
     angle := angle;
     delay := INR i / INR tetraCount |}.

Definition localProgress (progress delay : R) : R :=
  Rmax 0 (Rmin 1 (progress * 1.5 - delay * 0.5)).

Definition position (progress : R) (tetra : Tetra) : Triple :=
  let p := localProgress progress (delay tetra) in
  let smooth := p * p * (3 - 2 * p) in
  let tp := treePosition tetra in
  let gp := galaxyPosition tetra in
  (t0 tp + (t0 gp - t0 tp) * smooth,
   t1 tp + (t1 gp - t1 tp) * smooth,
   t2 tp + (t2 gp - t2 tp) * smooth).

End TetrahedronSpiral.

(** ** The scene: runs of the camera frame *)

Module SceneRun.

Import THREE Scene.

(** Successive frames under the same props, one [delta] per frame. *)
Fixpoint frames (p : Props) (deltas : list R) (positionRef : Vector3)
    : Vector3 :=
  match deltas with
  | [] => positionRef
  | delta :: rest => frames p rest (useFrame p delta positionRef)
  end.

Definition total (deltas : list R) : R := fold_right Rplus 0 deltas.

End SceneRun.

(** ** components/christmas/TreeStar.tsx *)

Module TreeStar.

Import ParticleSystem.




Record StarMesh : Type := mkStarMesh {
  star_rotation_z : R;
  star_opacity : R
}.

Record GlowMesh : Type := mkGlowMesh {
  glow_rotation_z : R;
  glow_opacity : R;
  glow_scale : R
}.

(** The refs of the component; [groupRef] holds [position.y] of the
    group, [None] while unmounted. *)
Record Refs : Type := mkRefs {
  groupRef : option R;
  starRef : option StarMesh;
  glowRef : option GlowMesh;
  timeRef : R;
  glowIntensityRef : R
}.

Definition targetY (state : TreeState) : R :=
  match state with tree => 4.4 | galaxy => 10 end.

Definition targetOpacity (state : TreeState) : R :=
  match state with tree => 1 | galaxy => 0 end.

(** The callback given to [useFrame]. *)
Definition useFrame (state : TreeState) (isFocused : bool) (delta : R)
    (r : Refs) : Refs :=
  match groupRef r with
  | None => r
  | Some y =>
    let time := timeRef r + delta in
    let star1 :=
      match starRef r with
      | Some s => Some {| star_rotation_z := star_rotation_z s + delta * 0.2;
                          star_opacity := star_opacity s |}
      | None => None
      end in
    let glow1 :=
      match glowRef r with
      | Some g => Some {| glow_rotation_z := glow_rotation_z g + delta * 0.15;
                          glow_opacity := glow_opacity g;
                          glow_scale := glow_scale g |}
      | None => None
      end in
    let y' := y + (targetY state - y) * 0.05 in
    let star2 :=
      match star1 with
      | Some s =>
        Some {| star_rotation_z := star_rotation_z s;
                star_opacity :=
                  star_opacity s
                  + (targetOpacity state - star_opacity s) * 0.05 |}
      | None => None
      end in
    let targetGlow := if isFocused then 1 else 0 in
    let glowIntensity :=
      glowIntensityRef r + (targetGlow - glowIntensityRef r) * delta * 3 in
    let glow2 :=
      match glow1 with
      | Some g =>
        let pulse := if isFocused then sin (time * 3) * 0.3 + 0.7 else 0 in
        let scale := 1 + glowIntensity * (sin (time * 2) * 0.2 + 0.5) in
        Some {| glow_rotation_z := glow_rotation_z g;
                glow_opacity := glowIntensity * pulse;
                glow_scale := scale |}
      | None => None
      end in
    {| groupRef := Some y'; starRef := star2; glowRef := glow2;
       timeRef := time; glowIntensityRef := glowIntensity |}
  end.

Fixpoint frames (state : TreeState) (isFocused : bool) (deltas : list R)
    (r : Refs) : Refs :=
  match deltas with
  | [] => r
  | delta :: rest =>
    frames state isFocused rest (useFrame state isFocused delta r)
  end.

(** The refs after mount: the group at [position={[0, 4.4, 0]}], the star
    opaque and the glow transparent, as in the JSX. *)
Definition mounted : Refs :=
  {| groupRef := Some 4.4;
     starRef := Some {| star_rotation_z := 0; star_opacity := 1 |};
     glowRef := Some {| glow_rotation_z := -0.1; glow_opacity := 0;
                        glow_scale := 1 |};
     timeRef := 0;
     glowIntensityRef := 0 |}.

End TreeStar.

(** * Properties *)

(** ** Comparisons and square roots *)

Lemma ltb_true (a b : R) : Js.ltb a b = true <-> a < b.
Proof.
  unfold Js.ltb; destruct (Rlt_dec a b); split; intros; try easy.
Qed.

Lemma ltb_false (a b : R) : Js.ltb a b = false <-> ~ a < b.
Proof.
  unfold Js.ltb; destruct (Rlt_dec a b); split; intros; try easy.
Qed.

Lemma sqrt_ge_of_square (c a : R) : 0 <= c -> c * c <= a -> c <= sqrt a.
Proof.
  intros Hc Hle.
  rewrite <- (sqrt_square c Hc).
  now apply sqrt_le_1_alt.
Qed.

Lemma sqrt_lt_of_square (c a : R) :
  0 < c -> 0 <= a -> a < c * c -> sqrt a < c.
Proof.
  intros Hc Ha Hlt.
  rewrite <- (sqrt_square c) by lra.
  apply sqrt_lt_1_alt; lra.
Qed.

Lemma Rabs_le_bounds (a b : R) : Rabs a <= b -> - b <= a <= b.
Proof.
  unfold Rabs. destruct (Rcase_abs a); lra.
Qed.

(** ** The landmark classifier *)

Section Classifier.

Import HandGesture.

(** On 21 points or more none of the reads is out of range: the function is
    the decision on the pinch distance and the four comparisons. *)
Lemma detectGesture_21 (l0 l1 l2 l3 l4 l5 l6 l7 l8 l9 l10 l11 l12 l13 l14
    l15 l16 l17 l18 l19 l20 : Landmark) (more : list Landmark) :
  detectGesture
    (Some (l0 :: l1 :: l2 :: l3 :: l4 :: l5 :: l6 :: l7 :: l8 :: l9 :: l10
           :: l11 :: l12 :: l13 :: l14 :: l15 :: l16 :: l17 :: l18 :: l19
           :: l20 :: more))
  = Some
      (if Js.ltb (sqrt ((x l4 - x l8) ^ 2 + (y l4 - y l8) ^ 2
                        + (z l4 - z l8) ^ 2)) 0.06
       then pinch
       else
         let i := Js.ltb (y l8) (y l5) in
         let m := Js.ltb (y l12) (y l9) in
         let r := Js.ltb (y l16) (y l13) in
         let p := Js.ltb (y l20) (y l17) in
         if (3 <=? countTrue [i; m; r; p])%nat then open
         else if (countTrue [i; m; r; p] <=? 1)%nat then fist
         else if i && negb m && negb r && negb p then pointing
         else none).
Proof.
  unfold detectGesture, calculateFingerDistance.
  cbn [length Nat.ltb Nat.leb Js.index nth_error Js.bind].
  destruct (Js.ltb _ 0.06); [reflexivity|].
  cbv zeta.
  repeat match goal with
  | |- context [if ?c then _ else _] => destruct c
  end; reflexivity.
Qed.

(** A list of 21 elements or more, taken apart. *)
Lemma long_list_inv {A : Type} (l : list A) :
  (21 <= length l)%nat ->
  exists l0 l1 l2 l3 l4 l5 l6 l7 l8 l9 l10 l11 l12 l13 l14 l15 l16 l17 l18
         l19 l20 more,
    l = l0 :: l1 :: l2 :: l3 :: l4 :: l5 :: l6 :: l7 :: l8 :: l9 :: l10
        :: l11 :: l12 :: l13 :: l14 :: l15 :: l16 :: l17 :: l18 :: l19
        :: l20 :: more.
Proof.
  intros Hlen.
  do 21 (destruct l as [|? l]; [simpl in Hlen; lia|]).
  repeat eexists.
Qed.

(** The classifier never throws. *)
Lemma detectGesture_total (landmarks : option (list Landmark)) :
  exists g, detectGesture landmarks = Some g.
Proof.
  destruct landmarks as [lm|]; [|now exists none].
  destruct (Nat.ltb_spec (length lm) 21) as [Hshort|Hlong].
  - exists none. unfold detectGesture.
    now rewrite (proj2 (Nat.ltb_lt _ _) Hshort).
  - destruct (long_list_inv lm Hlong)
      as (l0 & l1 & l2 & l3 & l4 & l5 & l6 & l7 & l8 & l9 & l10 & l11 & l12
          & l13 & l14 & l15 & l16 & l17 & l18 & l19 & l20 & more & ->).
    rewrite detectGesture_21. eauto.
Qed.

(** Absent or short input is classified [none]. *)
Lemma detectGesture_short (lm : list Landmark) :
  (length lm < 21)%nat -> detectGesture (Some lm) = Some none.
Proof.
  intros Hshort. unfold detectGesture.
  now rewrite (proj2 (Nat.ltb_lt _ _) Hshort).
Qed.

End Classifier.

Section ClassifierCases.

Import HandGesture.

Variables l0 l1 l2 l3 l4 l5 l6 l7 l8 l9 l10 l11 l12 l13 l14 l15 l16 l17 l18
  l19 l20 : Landmark.

(** A landmark set of exactly 21 points. *)
Let hand : list Landmark :=
  [l0; l1; l2; l3; l4; l5; l6; l7; l8; l9; l10; l11; l12; l13; l14; l15;
   l16; l17; l18; l19; l20].

Variable d : R.
Hypothesis pinch_distance : calculateFingerDistance hand 4 8 = Some d.
Hypothesis apart : 0.06 <= d.

Lemma not_pinched :
  Js.ltb (sqrt ((x l4 - x l8) ^ 2 + (y l4 - y l8) ^ 2 + (z l4 - z l8) ^ 2))
         0.06 = false.
Proof.
  assert (Hd : sqrt ((x l4 - x l8) ^ 2 + (y l4 - y l8) ^ 2
                     + (z l4 - z l8) ^ 2) = d).
  { apply (f_equal (fun o => match o with Some v => v | None => 0 end))
      in pinch_distance.
    exact pinch_distance. }
  apply ltb_false. rewrite Hd. lra.
Qed.

(** All four fingertips above their knuckles: [open]. *)
Lemma all_extended_open :
  y l8 < y l5 -> y l12 < y l9 -> y l16 < y l13 -> y l20 < y l17 ->
  detectGesture (Some hand) = Some open.
Proof.
  intros Hi Hm Hr Hp. unfold hand.
  rewrite detectGesture_21, not_pinched. cbv zeta.
  rewrite !(proj2 (ltb_true _ _)) by assumption.
  reflexivity.
Qed.

(** No fingertip above its knuckle: [fist]. *)
Lemma none_extended_fist :
  ~ y l8 < y l5 -> ~ y l12 < y l9 -> ~ y l16 < y l13 -> ~ y l20 < y l17 ->
  detectGesture (Some hand) = Some fist.
Proof.
  intros Hi Hm Hr Hp. unfold hand.
  rewrite detectGesture_21, not_pinched. cbv zeta.
  rewrite !(proj2 (ltb_false _ _)) by assumption.
  reflexivity.
Qed.

(** Only the index fingertip above its knuckle: the count is 1, and the
    test [extendedCount <= 1] answers [fist] before the pointing test is
    reached. *)
Lemma only_index_extended_fist :
  y l8 < y l5 -> ~ y l12 < y l9 -> ~ y l16 < y l13 -> ~ y l20 < y l17 ->
  detectGesture (Some hand) = Some fist.
Proof.
  intros Hi Hm Hr Hp. unfold hand.
  rewrite detectGesture_21, not_pinched. cbv zeta.
  rewrite (proj2 (ltb_true _ _) Hi).
  rewrite !(proj2 (ltb_false _ _)) by assumption.
  reflexivity.
Qed.

End ClassifierCases.

Section SyntheticHands.

Import HandGesture Fixtures.

Lemma ltb_tipY (b : bool) : Js.ltb (tipY b) 0.5 = b.
Proof.
  destruct b; unfold tipY; [apply ltb_true | apply ltb_false]; lra.
Qed.

Lemma syntheticHand_distance (i m r p : bool) :
  exists d, calculateFingerDistance (syntheticHand i m r p) 4 8 = Some d
            /\ 0.06 <= d.
Proof.
  eexists; split; [reflexivity|].
  cbn [x y z pt].
  apply sqrt_ge_of_square; [lra|].
  destruct i; unfold tipY; nra.
Qed.

(** What the classifier answers on a synthetic hand. *)
Lemma detectGesture_syntheticHand (i m r p : bool) :
  detectGesture (Some (syntheticHand i m r p))
  = Some (if (3 <=? countTrue [i; m; r; p])%nat then open
          else if (countTrue [i; m; r; p] <=? 1)%nat then fist
          else if i && negb m && negb r && negb p then pointing
          else none).
Proof.
  destruct (syntheticHand_distance i m r p) as (d & Hd & Hle).
  unfold syntheticHand in *.
  rewrite detectGesture_21.
  rewrite (not_pinched _ _ _ _ _ _ _ _ _ _ _ _ _ _ _ _ _ _ _ _ _ d Hd Hle).
  cbv zeta. cbn [y pt].
  now rewrite !ltb_tipY.
Qed.

Lemma detectGesture_fistHand :
  detectGesture (Some (syntheticHand false false false false)) = Some fist.
Proof. now rewrite detectGesture_syntheticHand. Qed.

Lemma detectGesture_openHand :
  detectGesture (Some (syntheticHand true true true true)) = Some open.
Proof. now rewrite detectGesture_syntheticHand. Qed.

End SyntheticHands.

(** C1 (the code departs from the claim).  The claim: with thumb tip and
    index tip at least 0.06 apart, four extended fingers give [open], none
    extended gives [fist], and only the index extended gives [pointing].
    The first two hold ([all_extended_open], [none_extended_fist]).  The
    third does not: on the synthetic hand with only the index fingertip
    above its knuckle, at pinch distance at least 0.06, [detectGesture]
    returns [fist]. *)
Theorem C1_only_index_extended_returns_fist :
  let lm := Fixtures.syntheticHand true false false false in
  length lm = 21%nat
  /\ (exists d, HandGesture.calculateFingerDistance lm 4 8 = Some d
                /\ 0.06 <= d)
  /\ (exists indexTip indexMcp middleTip middleMcp ringTip ringMcp
             pinkyTip pinkyMcp,
        Js.index lm 8 = Some indexTip /\ Js.index lm 5 = Some indexMcp
        /\ Js.index lm 12 = Some middleTip /\ Js.index lm 9 = Some middleMcp
        /\ Js.index lm 16 = Some ringTip /\ Js.index lm 13 = Some ringMcp
        /\ Js.index lm 20 = Some pinkyTip /\ Js.index lm 17 = Some pinkyMcp
        /\ HandGesture.y indexTip < HandGesture.y indexMcp
        /\ ~ HandGesture.y middleTip < HandGesture.y middleMcp
        /\ ~ HandGesture.y ringTip < HandGesture.y ringMcp
        /\ ~ HandGesture.y pinkyTip < HandGesture.y pinkyMcp)
  /\ HandGesture.detectGesture (Some lm) = Some HandGesture.fist
  /\ HandGesture.detectGesture (Some lm) <> Some HandGesture.pointing.
Proof.
  cbv zeta. split; [reflexivity|].
  split; [apply syntheticHand_distance|].
  split.
  - do 8 eexists.
    repeat (split; [reflexivity|]).
    cbn [HandGesture.y Fixtures.pt Fixtures.tipY]. repeat split; lra.
  - rewrite detectGesture_syntheticHand. cbn. split; [reflexivity|discriminate].
Qed.

(** C10.  For every landmark input, absent, short or long, [detectGesture]
    does not return [pointing]: with only the index extended the count is 1
    and the [fist] test comes first; the results are among [none], [fist],
    [open] and [pinch]. *)
Theorem C10_detectGesture_never_pointing
    (landmarks : option (list HandGesture.Landmark)) :
  HandGesture.detectGesture landmarks <> Some HandGesture.pointing
  /\ (HandGesture.detectGesture landmarks = Some HandGesture.none
      \/ HandGesture.detectGesture landmarks = Some HandGesture.fist
      \/ HandGesture.detectGesture landmarks = Some HandGesture.open
      \/ HandGesture.detectGesture landmarks = Some HandGesture.pinch).
Proof.
  destruct landmarks as [lm|]; [|split; [discriminate|now left]].
  destruct (Nat.ltb_spec (length lm) 21) as [Hshort|Hlong].
  - rewrite (detectGesture_short lm Hshort). split; [discriminate|now left].
  - destruct (long_list_inv lm Hlong)
      as (l0 & l1 & l2 & l3 & l4 & l5 & l6 & l7 & l8 & l9 & l10 & l11 & l12
          & l13 & l14 & l15 & l16 & l17 & l18 & l19 & l20 & more & ->).
    rewrite detectGesture_21.
    destruct (Js.ltb _ 0.06); [split; [discriminate|tauto]|].
    cbv zeta.
    destruct (Js.ltb (HandGesture.y l8) (HandGesture.y l5)),
             (Js.ltb (HandGesture.y l12) (HandGesture.y l9)),
             (Js.ltb (HandGesture.y l16) (HandGesture.y l13)),
             (Js.ltb (HandGesture.y l20) (HandGesture.y l17));
      cbn; (split; [discriminate|tauto]).
Qed.

(** ** The session controller *)

Section Session.

Import HandGesture Fixtures Spec.

Context {W : Type}.
Variable onGestureChange : option (GestureType -> W -> W).

Lemma GestureType_eqb_eq (a b : GestureType) :
  GestureType_eqb a b = true <-> a = b.
Proof. destruct a, b; simpl; split; intros; try easy. Qed.

(** A frame with a hand of 21 points or more: the state takes the frame's
    label, and the callback runs when the label differs from the stored one. *)
Lemma onResults_hand (lm : list Landmark) (h : Hook W) :
  (21 <= length lm)%nat ->
  exists hp d,
    onResults onGestureChange (handFrame lm) h
    = Some {| state := {| gesture := classOf lm;
                          handPosition := Some hp;
                          pinchDistance := d;
                          isTracking := true |};
              lastGestureRef := classOf lm;
              world := if GestureType_eqb (classOf lm) (lastGestureRef h)
                       then world h
                       else callOnGestureChange onGestureChange (classOf lm)
                              (world h) |}.
Proof.
  intros Hlong. unfold classOf.
  destruct (detectGesture_total (Some lm)) as (g & Hg). rewrite Hg.
  unfold onResults, handFrame. cbn [multiHandLandmarks]. rewrite Hg.
  destruct (long_list_inv lm Hlong)
    as (l0 & l1 & l2 & l3 & l4 & l5 & l6 & l7 & l8 & l9 & l10 & l11 & l12
        & l13 & l14 & l15 & l16 & l17 & l18 & l19 & l20 & more & ->).
  unfold calculateFingerDistance.
  cbn [Js.index nth_error Js.bind].
  do 2 eexists.
  destruct (GestureType_eqb g (lastGestureRef h)) eqn:E; cbn [negb].
  - apply GestureType_eqb_eq in E. now rewrite E.
  - reflexivity.
Qed.

(** A label other than [none] is only given to 21 points or more. *)
Lemma classified_long (lm : list Landmark) (g : GestureType) :
  detectGesture (Some lm) = Some g -> g <> none -> (21 <= length lm)%nat.
Proof.
  intros Hg Hne.
  destruct (Nat.ltb_spec (length lm) 21) as [Hshort|Hlong]; [|exact Hlong].
  rewrite (detectGesture_short lm Hshort) in Hg. congruence.
Qed.

End Session.

Section SessionLog.

Import HandGesture Fixtures Spec.

Lemma last_cons {A : Type} (a d : A) (l : list A) :
  last (a :: l) d = last l a.
Proof.
  revert a d; induction l as [|b l IH]; intros a d; [reflexivity|].
  change (last (a :: b :: l) d) with (last (b :: l) d).
  now rewrite (IH b d), (IH b a).
Qed.

(** Edge triggering, for any run of frames with a hand: the log grows by
    the labels that differ from their predecessor, and the stored label is
    the last label seen, as is the gesture of the state. *)
Lemma feed_hands (lms : list (list Landmark)) :
  forall h : Hook (list GestureType),
  Forall (fun lm => (21 <= length lm)%nat) lms ->
  gesture (state h) = lastGestureRef h ->
  exists h',
    feed recorder (map handFrame lms) h = Some h'
    /\ lastGestureRef h' = last (map classOf lms) (lastGestureRef h)
    /\ gesture (state h') = lastGestureRef h'
    /\ world h' = world h ++ changes (lastGestureRef h) (map classOf lms).
Proof.
  induction lms as [|lm rest IH]; intros h Hall Hinv.
  - exists h. cbn. rewrite app_nil_r. repeat split; congruence.
  - inversion Hall as [|? ? Hlm Hrest]; subst.
    destruct (onResults_hand recorder lm h Hlm) as (hp & d & Hstep).
    cbn [map feed]. rewrite Hstep. cbn [Js.bind].
    match goal with |- context [feed _ _ ?h1] => set (hook1 := h1) end.
    destruct (IH hook1 Hrest eq_refl) as (h' & Hfeed & Hlast & Hgest & Hworld).
    exists h'. split; [exact Hfeed|].
    split; [|split; [exact Hgest|]].
    + rewrite Hlast. cbn [lastGestureRef hook1]. now rewrite last_cons.
    + rewrite Hworld. cbn [world lastGestureRef hook1 changes].
      destruct (GestureType_eqb (classOf lm) (lastGestureRef h)).
      * reflexivity.
      * cbn [callOnGestureChange recorder]. now rewrite <- app_assoc.
Qed.

End SessionLog.

Section SessionClaims.

Import HandGesture Fixtures Spec.

(** C2.  From the mounted hook (stored label [none]), six frames classified
    fist, fist, fist, open, open, fist call the gesture-change callback
    exactly three times, with fist, open, fist: at the first frame, at the
    fourth and at the sixth.  After each frame the stored label, and the
    gesture of the state, is the label of that frame. *)
Theorem C2_six_frames_three_notifications
    (lm1 lm2 lm3 lm4 lm5 lm6 : list Landmark) :
  detectGesture (Some lm1) = Some fist ->
  detectGesture (Some lm2) = Some fist ->
  detectGesture (Some lm3) = Some fist ->
  detectGesture (Some lm4) = Some open ->
  detectGesture (Some lm5) = Some open ->
  detectGesture (Some lm6) = Some fist ->
  let frames := map handFrame [lm1; lm2; lm3; lm4; lm5; lm6] in
  let labels :=
    [fist; fist; fist; open; open; fist] in
  let logs :=
    [[fist]; [fist]; [fist]; [fist; open]; [fist; open];
     [fist; open; fist]] in
  (exists h,
     feed recorder frames (mount [])
     = Some h
     /\ world h = [fist; open; fist]
     /\ length (world h) = 3%nat)
  /\ forall k, (k < 6)%nat ->
     exists hk,
       feed recorder (firstn (S k) frames)
         (mount []) = Some hk
       /\ nth_error labels k = Some (lastGestureRef hk)
       /\ gesture (state hk)
          = lastGestureRef hk
       /\ nth_error logs k = Some (world hk).
Proof.
  intros H1 H2 H3 H4 H5 H6 frames labels logs.
  assert (L1 := classified_long lm1 _ H1 ltac:(discriminate)).
  assert (L2 := classified_long lm2 _ H2 ltac:(discriminate)).
  assert (L3 := classified_long lm3 _ H3 ltac:(discriminate)).
  assert (L4 := classified_long lm4 _ H4 ltac:(discriminate)).
  assert (L5 := classified_long lm5 _ H5 ltac:(discriminate)).
  assert (L6 := classified_long lm6 _ H6 ltac:(discriminate)).
  assert (run : forall lms,
    Forall (fun lm => (21 <= length lm)%nat) lms ->
    exists h',
      feed recorder (map handFrame lms)
        (mount []) = Some h'
      /\ lastGestureRef h'
         = last (map classOf lms) none
      /\ gesture (state h')
         = lastGestureRef h'
      /\ world h'
         = changes none (map classOf lms)).
  { intros lms Hall.
    exact (feed_hands lms (mount []) Hall eq_refl). }
  assert (C1 : classOf lm1 = fist)
    by (unfold classOf; now rewrite H1).
  assert (C2 : classOf lm2 = fist)
    by (unfold classOf; now rewrite H2).
  assert (C3 : classOf lm3 = fist)
    by (unfold classOf; now rewrite H3).
  assert (C4 : classOf lm4 = open)
    by (unfold classOf; now rewrite H4).
  assert (C5 : classOf lm5 = open)
    by (unfold classOf; now rewrite H5).
  assert (C6 : classOf lm6 = fist)
    by (unfold classOf; now rewrite H6).
  split.
  - destruct (run [lm1; lm2; lm3; lm4; lm5; lm6])
      as (h & Hfeed & _ & _ & Hworld); [repeat constructor; assumption|].
    exists h. split; [exact Hfeed|].
    cbn [map] in Hworld. rewrite C1, C2, C3, C4, C5, C6 in Hworld.
    cbn in Hworld. rewrite Hworld. split; reflexivity.
  - intros k Hk.
    do 6 (destruct k as [|k];
      [ match goal with
        | |- context [firstn ?n frames] =>
            let pre := eval cbn in (firstn n [lm1; lm2; lm3; lm4; lm5; lm6]) in
            destruct (run pre) as (hk & Hfeed & Hlast & Hgest & Hworld);
              [repeat constructor; assumption|];
            exists hk; split; [exact Hfeed|];
            cbn [map] in Hlast, Hworld;
            rewrite ?C1, ?C2, ?C3, ?C4, ?C5, ?C6 in Hlast, Hworld;
            cbn in Hlast, Hworld;
            rewrite Hgest, Hlast, Hworld; repeat split; reflexivity
        end
      | ]).
    lia.
Qed.

(** The scenario of C2 on synthetic hands. *)
Lemma C2_six_frames_witness :
  exists h,
    feed recorder
      [fistFrame; fistFrame; fistFrame; openFrame; openFrame; fistFrame]
      (mount []) = Some h
    /\ world h = [fist; open; fist]
    /\ length (world h) = 3%nat.
Proof.
  exact (proj1 (C2_six_frames_three_notifications
    (syntheticHand false false false false)
    (syntheticHand false false false false)
    (syntheticHand false false false false)
    (syntheticHand true true true true)
    (syntheticHand true true true true)
    (syntheticHand false false false false)
    detectGesture_fistHand detectGesture_fistHand detectGesture_fistHand
    detectGesture_openHand detectGesture_openHand detectGesture_fistHand)).
Defined.

(** C8.  A tracker callback with no hand ([multiHandLandmarks] undefined or
    empty) sets [isTracking] to false and [handPosition] to null; the
    gesture of the state, the pinch distance and the stored last gesture
    stay as they were, and the gesture-change callback is not called. *)
Theorem C8_no_hand_keeps_gesture {W : Type}
    (onGestureChange : option (GestureType -> W -> W))
    (results : Results) (h : Hook W) :
  multiHandLandmarks results = None
  \/ multiHandLandmarks results = Some [] ->
  exists h',
    onResults onGestureChange results h = Some h'
    /\ isTracking (state h') = false
    /\ handPosition (state h') = None
    /\ gesture (state h')
       = gesture (state h)
    /\ pinchDistance (state h')
       = pinchDistance (state h)
    /\ lastGestureRef h' = lastGestureRef h
    /\ world h' = world h.
Proof.
  intros Hnone. unfold onResults.
  destruct Hnone as [-> | ->]; eexists; repeat split.
Qed.

(** C8 on a hook that tracks a fist, at an empty result. *)
Lemma C8_no_hand_witness :
  exists h',
    onResults recorder
      {| multiHandLandmarks := Some [] |} trackingFist
    = Some h'
    /\ isTracking (state h') = false
    /\ handPosition (state h') = None
    /\ gesture (state h') = fist
    /\ pinchDistance (state h') = 0.3
    /\ lastGestureRef h' = fist
    /\ world h' = [fist].
Proof.
  apply (C8_no_hand_keeps_gesture recorder
           {| multiHandLandmarks := Some [] |}
           trackingFist).
  right. reflexivity.
Defined.

End SessionClaims.

(** ** The photo-card spring engine *)

Section Spring.

Import THREE PhotoCards Fixtures.

Lemma stable_true (p : Props) (s : SpringState) :
  stable p s = true
  <-> distanceTo (position s) (targetPos p) < 0.01
      /\ Rabs (scale s - targetScale p) < 0.01
      /\ length (velocity s) < 0.01.
Proof.
  unfold stable. cbv zeta.
  rewrite !andb_true_iff, !ltb_true. tauto.
Qed.

(** Integration over a time step of zero adds nothing. *)
Lemma integrate_zero (p : Props) (s : SpringState) : integrate p 0 s = s.
Proof.
  unfold integrate. generalize (targetPos p) (targetScale p).
  intros [tx ty tz] ts.
  destruct s as [[qx qy qz] [vx vy vz] sc sv].
  unfold add, multiplyScalar, subVectors. cbn [x y z position velocity
    PhotoCards.scale scaleVelocity].
  f_equal; [f_equal; ring | f_equal; ring | ring | ring].
Qed.

(** The spring after a frame: untouched while unmounted or stable, and
    integrated over [min(delta, 0.033)] otherwise. *)
Lemma springRef_useFrame (p : Props) (delta : R) (r : Refs) :
  springRef (useFrame p delta r)
  = match meshRef r with
    | None => springRef r
    | Some _ =>
      if stable p (springRef r) then springRef r
      else integrate p (Rmin delta 0.033) (springRef r)
    end.
Proof.
  unfold useFrame.
  destruct (meshRef r); [|reflexivity].
  destruct (stable p (springRef r)); reflexivity.
Qed.

(** There is no test on the sign of [delta]: a negative one is the time
    step as it is. *)
Lemma negative_delta_is_the_step (p : Props) (delta : R) (r : Refs)
    (mesh : Object3D) :
  delta < 0 -> meshRef r = Some mesh -> stable p (springRef r) = false ->
  springRef (useFrame p delta r) = integrate p delta (springRef r).
Proof.
  intros Hneg Hmesh Hst.
  rewrite springRef_useFrame, Hmesh, Hst.
  now rewrite Rmin_left by lra.
Qed.

Lemma moving_card_not_stable :
  stable cardToGalaxy (springRef (mounted cardToGalaxy 0)) = false.
Proof.
  unfold stable. cbv zeta.
  replace (Js.ltb (distanceTo _ _) 0.01) with false; [reflexivity|].
  symmetry. apply ltb_false. unfold distanceTo. cbn.
  apply Rle_not_lt. apply sqrt_ge_of_square; lra.
Qed.

(** C3 (the claim fails on the code).  With a negative [delta] the frame
    integrates backwards: on the card that has to move, mounted and at
    rest, a frame with [delta = -0.01] leaves the velocity at -0.25 and
    the position at 0.0025 along x; the spring state has changed. *)
Lemma C3_negative_delta_moves_spring :
  let r := mounted cardToGalaxy 0 in
  let r' := useFrame cardToGalaxy (-0.01) r in
  -0.01 <= 0
  /\ x (velocity (springRef r')) = -0.25
  /\ x (position (springRef r')) = 0.0025
  /\ springRef r' <> springRef r.
Proof.
  cbv zeta.
  rewrite (negative_delta_is_the_step cardToGalaxy (-0.01)
             (mounted cardToGalaxy 0) _ ltac:(lra) eq_refl
             moving_card_not_stable).
  assert (Hv : x (velocity (integrate cardToGalaxy (-0.01)
                 (springRef (mounted cardToGalaxy 0)))) = -0.25).
  { cbn. unfold SPRING_STIFFNESS, SPRING_DAMPING. lra. }
  assert (Hp : x (position (integrate cardToGalaxy (-0.01)
                 (springRef (mounted cardToGalaxy 0)))) = 0.0025).
  { cbn. unfold SPRING_STIFFNESS, SPRING_DAMPING. lra. }
  split; [lra|]. split; [exact Hv|]. split; [exact Hp|].
  intros Heq. rewrite Heq in Hp. cbn in Hp. lra.
Qed.

(** C3 (as amended).  On a frame whose [delta] is zero the spring state,
    position, velocity, scale and scale velocity, is left unchanged,
    whatever the props and the refs.  A negative [delta] is not skipped:
    on a mounted card that is not settled the frame integrates with the
    time step [delta]. *)
Theorem C3_zero_delta_keeps_spring (p : Props) (r : Refs) :
  springRef (useFrame p 0 r) = springRef r
  /\ forall delta mesh,
     delta < 0 -> meshRef r = Some mesh -> stable p (springRef r) = false ->
     springRef (useFrame p delta r) = integrate p delta (springRef r).
Proof.
  split.
  - rewrite springRef_useFrame.
    destruct (meshRef r); [|reflexivity].
    destruct (stable p (springRef r)); [reflexivity|].
    rewrite Rmin_left by lra.
    apply integrate_zero.
  - intros delta mesh. apply negative_delta_is_the_step.
Qed.

(** C3 as amended, on the card that has to move, just mounted. *)
Lemma C3_zero_delta_witness :
  springRef (useFrame cardToGalaxy 0 (mounted cardToGalaxy 0))
  = springRef (mounted cardToGalaxy 0)
  /\ springRef (useFrame cardToGalaxy (-0.01) (mounted cardToGalaxy 0))
     = integrate cardToGalaxy (-0.01) (springRef (mounted cardToGalaxy 0)).
Proof.
  destruct (C3_zero_delta_keeps_spring cardToGalaxy (mounted cardToGalaxy 0))
    as [Hzero Hneg].
  split; [exact Hzero|].
  apply (Hneg (-0.01)
           {| mesh_position := treePosition cardToGalaxy;
              mesh_scale := {| x := 0.5; y := 0.5; z := 1 |} |}).
  - lra.
  - reflexivity.
  - exact moving_card_not_stable.
Defined.

End Spring.

Section Settled.

Import THREE PhotoCards Fixtures.

Lemma frames_stable (p : Props) (deltas : list R) :
  forall r : Refs,
  stable p (springRef r) = true ->
  springRef (frames p deltas r) = springRef r.
Proof.
  induction deltas as [|delta rest IH]; intros r Hst; [reflexivity|].
  assert (Hstep : springRef (useFrame p delta r) = springRef r).
  { rewrite springRef_useFrame, Hst. now destruct (meshRef r). }
  cbn [frames]. rewrite IH; rewrite Hstep; [reflexivity|exact Hst].
Qed.

(** The idle bob is at most 0.005 either way. *)
Lemma bob_bound (t : R) : Rabs (sin t * 0.005) <= 0.005.
Proof.
  destruct (SIN_bound t) as [Hlo Hhi].
  apply Rabs_le. lra.
Qed.

(** C6.  On a frame where position error, scale error and speed are all
    under 0.01, under unchanged props, the spring state is not written,
    on that frame or on any number of frames that follow.  The rendered
    group keeps its scale and its x and z; its y is either kept or set to
    the spring's y plus the idle bob, so that a y within 0.005 of the
    spring's y stays so and moves by at most 0.01 in the frame. *)
Theorem C6_settled_spring_is_not_written (p : Props) (r : Refs) :
  distanceTo (position (springRef r)) (targetPos p) < 0.01 ->
  Rabs (scale (springRef r) - targetScale p) < 0.01 ->
  length (velocity (springRef r)) < 0.01 ->
  (forall deltas, springRef (frames p deltas r) = springRef r)
  /\ forall delta mesh,
     meshRef r = Some mesh ->
     exists mesh',
       meshRef (useFrame p delta r) = Some mesh'
       /\ mesh_scale mesh' = mesh_scale mesh
       /\ x (mesh_position mesh') = x (mesh_position mesh)
       /\ z (mesh_position mesh') = z (mesh_position mesh)
       /\ (y (mesh_position mesh') = y (mesh_position mesh)
           \/ y (mesh_position mesh')
              = y (position (springRef r))
                + sin ((timeRef r + Rmin delta 0.033) * 0.5) * 0.005)
       /\ (Rabs (y (mesh_position mesh) - y (position (springRef r)))
             <= 0.005 ->
           Rabs (y (mesh_position mesh') - y (position (springRef r)))
             <= 0.005
           /\ Rabs (y (mesh_position mesh') - y (mesh_position mesh))
                <= 0.01).
Proof.
  intros Hpos Hscale Hvel.
  assert (Hst : stable p (springRef r) = true)
    by (apply stable_true; tauto).
  split; [intros deltas; now apply frames_stable|].
  intros delta mesh Hmesh.
  unfold useFrame. rewrite Hmesh, Hst.
  destruct ((S (frameCountRef r) mod 4 =? 0)%nat && negb (isFocused p)).
  - eexists. split; [reflexivity|].
    cbn [mesh_scale mesh_position x y z].
    repeat (split; [reflexivity|]).
    split; [now right|].
    intros Hnear.
    set (bob := sin ((timeRef r + Rmin delta 0.033) * 0.5) * 0.005).
    assert (Hbob : Rabs bob <= 0.005) by apply bob_bound.
    apply Rabs_le_bounds in Hnear. apply Rabs_le_bounds in Hbob.
    split; apply Rabs_le; lra.
  - exists mesh. split; [reflexivity|].
    repeat (split; [reflexivity|]).
    split; [now left|].
    intros Hnear. split; [exact Hnear|].
    replace (_ - _) with 0 by ring. rewrite Rabs_R0. lra.
Qed.

(** C6 on the card at rest, just mounted, over four frames. *)
Lemma C6_settled_witness :
  springRef (frames cardAtRest [0.016; 0.016; 0.033; 0.5]
               (mounted cardAtRest 0))
  = springRef (mounted cardAtRest 0).
Proof.
  refine (proj1 (C6_settled_spring_is_not_written cardAtRest
                   (mounted cardAtRest 0) _ _ _)
                [0.016; 0.016; 0.033; 0.5]).
  - unfold distanceTo. cbn. apply sqrt_lt_of_square; lra.
  - cbn. rewrite Rabs_pos_eq; lra.
  - unfold length. cbn. apply sqrt_lt_of_square; lra.
Defined.

(** ** Damping of the springs *)

(** C4 (the claim fails on the code).  Neither spring has
    [damping² >= 4 * stiffness]: 64 is less than 100 and 100 is less than
    120. *)
Lemma C4_springs_not_critically_damped :
  ~ SPRING_DAMPING * SPRING_DAMPING >= 4 * SPRING_STIFFNESS
  /\ ~ SCALE_DAMPING * SCALE_DAMPING >= 4 * SCALE_STIFFNESS.
Proof.
  unfold SPRING_DAMPING, SPRING_STIFFNESS, SCALE_DAMPING, SCALE_STIFFNESS.
  split; lra.
Qed.

End Settled.

(** ** Staggered interpolation of the particles *)

Section Particles.

Import ParticleSystem.

(** Any delay of at most 1 has reached full local progress when the global
    progress is 1, and has not started when it is 0. *)
Lemma staggeredProgress_one (particle : Particle) :
  delay particle <= 1 -> staggeredProgress 1 particle = 1.
Proof.
  intros Hd. unfold staggeredProgress.
  rewrite Rmin_left by lra. apply Rmax_right. lra.
Qed.

Lemma staggeredProgress_zero (particle : Particle) :
  0 <= delay particle -> staggeredProgress 0 particle = 0.
Proof.
  intros Hd. unfold staggeredProgress.
  rewrite Rmin_right by lra. apply Rmax_left. lra.
Qed.

Lemma smoothstep_ends : smoothstep 0 = 0 /\ smoothstep 1 = 1.
Proof. unfold smoothstep. split; ring. Qed.

(** C5.  For a particle with delay 0.2, tree endpoint (1,2,3) and galaxy
    endpoint (4,5,6): when the progress is at the end of the tween to the
    galaxy state, 1, the local progress is clamp(1.4) = 1 and the
    interpolation gives (4,5,6) exactly; at the end of the tween to the
    tree state, 0, it gives (1,2,3).  The instance written to the mesh has
    this x and z, and a y within the breathing amplitude 0.02 of it. *)
Theorem C5_staggered_interpolation_endpoints (scale phase speed time : R) :
  let particle :=
    {| treePosition := (1, 2, 3); galaxyPosition := (4, 5, 6);
       scale := scale; phase := phase; speed := speed; delay := 0.2 |} in
  tweenTarget galaxy = 1
  /\ tweenTarget tree = 0
  /\ staggeredProgress 1 particle = 1
  /\ staggeredProgress 0 particle = 0
  /\ interpolate 1 particle = (4, 5, 6)
  /\ interpolate 0 particle = (1, 2, 3)
  /\ t0 (inst_position (instanceOf time 1 particle)) = 4
  /\ Rabs (t1 (inst_position (instanceOf time 1 particle)) - 5) <= 0.02
  /\ t2 (inst_position (instanceOf time 1 particle)) = 6.
Proof.
  intros particle.
  assert (H1 : staggeredProgress 1 particle = 1)
    by (apply staggeredProgress_one; cbn; lra).
  assert (H0 : staggeredProgress 0 particle = 0)
    by (apply staggeredProgress_zero; cbn; lra).
  assert (I1 : interpolate 1 particle = (4, 5, 6)).
  { unfold interpolate. rewrite H1. cbv zeta.
    rewrite (proj2 smoothstep_ends).
    unfold particle, t0, t1, t2. cbn [treePosition galaxyPosition fst snd].
    repeat f_equal; ring. }
  assert (I0 : interpolate 0 particle = (1, 2, 3)).
  { unfold interpolate. rewrite H0. cbv zeta.
    rewrite (proj1 smoothstep_ends).
    unfold particle, t0, t1, t2. cbn [treePosition galaxyPosition fst snd].
    repeat f_equal; ring. }
  repeat (split; [first [reflexivity | assumption]|]).
  unfold instanceOf. cbv zeta. rewrite I1.
  unfold t0, t1, t2. cbn [inst_position fst snd].
  split; [reflexivity|]. split; [|reflexivity].
  destruct (SIN_bound (time * ParticleSystem.speed particle
                       + ParticleSystem.phase particle)) as [Hlo Hhi].
  apply Rabs_le. lra.
Qed.

End Particles.

(** ** The camera filter *)

Section Camera.

Import THREE Scene.

(** What is left of the distance to the target after one step is the
    factor [e^(-4 delta)]. *)
Lemma exp_halves (delta : R) :
  exp (- 4 * delta) = exp (- 4 * (delta / 2)) * exp (- 4 * (delta / 2)).
Proof.
  rewrite <- exp_plus. f_equal. field.
Qed.

(** C7.  With the props, hence the target, fixed, one frame of [delta]
    leaves the camera position where two successive frames of [delta / 2]
    leave it. *)
Theorem C7_camera_filter_frame_rate_independent
    (p : Props) (delta : R) (positionRef : Vector3) :
  useFrame p delta positionRef
  = useFrame p (delta / 2) (useFrame p (delta / 2) positionRef).
Proof.
  unfold useFrame, smoothFactor. cbv zeta. cbn [x y z].
  rewrite (exp_halves delta).
  set (e := exp (- 4 * (delta / 2))).
  f_equal; ring.
Qed.

End Camera.

(** ** The ornament ring *)

Section Ornaments.

Import ParticleSystem.

Lemma PI_gt_3 : 3 < PI.
Proof. generalize PI2_3_2. lra. Qed.

(** C9 (the claim fails on the code).  Two calls with the same index and
    total, 0 and 35, whose [Math.random()] draws are 0 and 0.5, give
    different positions: the z of the first is 0, that of the second is
    positive. *)
Lemma C9_same_index_different_positions :
  0 <= 0 < 1 /\ 0 <= 0.5 < 1
  /\ generateOrnamentPosition 0 35 0 <> generateOrnamentPosition 0 35 0.5.
Proof.
  split; [lra|]. split; [lra|].
  intros Heq.
  apply (f_equal t2) in Heq.
  unfold generateOrnamentPosition, ornamentAngle, t2 in Heq.
  cbv zeta in Heq. cbn [snd] in Heq.
  change (INR 0) with 0 in Heq.
  replace (0 * PI * 2.4 + 0 * 0.5) with 0 in Heq by ring.
  replace (0 * PI * 2.4 + 0.5 * 0.5) with 0.25 in Heq by lra.
  rewrite sin_0 in Heq.
  assert (Hs : 0 < sin 0.25) by (apply sin_gt_0; generalize PI_gt_3; lra).
  assert (Ht : INR 35 = 35) by (cbn; lra).
  rewrite Ht in Heq.
  assert (Hr : 0 < 3.2 * (1 - (0 + 0.5) / 35 * 0.9) * 0.85) by lra.
  nra.
Qed.

(** C9 (as amended).  The azimuth is the fixed per-index increment
    [index * 2.4 PI] plus a random offset [Math.random() * 0.5] in
    [0, 0.5).  Two calls with the same index and total give the same
    height and the same ring radius, and azimuths less than 0.5 apart;
    with equal draws they give the same position. *)
Theorem C9_ornament_azimuth_up_to_jitter
    (index total : nat) (random1 random2 : R) :
  0 <= random1 < 1 -> 0 <= random2 < 1 ->
  let p1 := generateOrnamentPosition index total random1 in
  let p2 := generateOrnamentPosition index total random2 in
  t1 p1 = t1 p2
  /\ t0 p1 * t0 p1 + t2 p1 * t2 p1 = t0 p2 * t0 p2 + t2 p2 * t2 p2
  /\ INR index * PI * 2.4 <= ornamentAngle index random1
       < INR index * PI * 2.4 + 0.5
  /\ Rabs (ornamentAngle index random1 - ornamentAngle index random2) < 0.5
  /\ (random1 = random2 -> p1 = p2).
Proof.
  intros H1 H2 p1 p2.
  split; [reflexivity|].
  split.
  - unfold p1, p2, generateOrnamentPosition, t0, t2. cbv zeta.
    cbn [fst snd].
    set (a1 := ornamentAngle index random1).
    set (a2 := ornamentAngle index random2).
    set (rad := 3.2 * (1 - (INR index + 0.5) / INR total * 0.9)).
    assert (E1 := sin2_cos2 a1). assert (E2 := sin2_cos2 a2).
    unfold Rsqr in E1, E2.
    replace (cos a1 * rad * 0.85 * (cos a1 * rad * 0.85)
             + sin a1 * rad * 0.85 * (sin a1 * rad * 0.85))
      with ((sin a1 * sin a1 + cos a1 * cos a1) * (rad * 0.85 * (rad * 0.85)))
      by ring.
    replace (cos a2 * rad * 0.85 * (cos a2 * rad * 0.85)
             + sin a2 * rad * 0.85 * (sin a2 * rad * 0.85))
      with ((sin a2 * sin a2 + cos a2 * cos a2) * (rad * 0.85 * (rad * 0.85)))
      by ring.
    now rewrite E1, E2.
  - unfold ornamentAngle.
    split; [lra|]. split.
    + apply Rabs_def1; lra.
    + intros ->. reflexivity.
Qed.

(** C9 as amended, on ornament 3 of 35 with draws 0.25 and 0.75. *)
Lemma C9_ornament_witness :
  t1 (generateOrnamentPosition 3 35 0.25)
  = t1 (generateOrnamentPosition 3 35 0.75)
  /\ Rabs (ornamentAngle 3 0.25 - ornamentAngle 3 0.75) < 0.5.
Proof.
  destruct (C9_ornament_azimuth_up_to_jitter 3 35 0.25 0.75
              ltac:(lra) ltac:(lra)) as (Hy & _ & _ & Ha & _).
  split; [exact Hy | exact Ha].
Defined.

End Ornaments.

(** ** Overshoot of the position spring *)

Section Overshoot.

Import THREE PhotoCards Fixtures SpringQ.

Lemma integrate_along_x (spring : SpringState) (s : Q * Q) :
  along_x spring s ->
  along_x (integrate cardToGalaxy 0.033 spring) (stepQ s).
Proof.
  intros (Hp & Hv & Hs & Hsv).
  unfold integrate, stepQ, along_x. cbv zeta.
  rewrite Hp, Hv, Hs, Hsv.
  unfold add, multiplyScalar, subVectors, targetPos, targetScale.
  cbn [cardToGalaxy isFocused state galaxyPosition x y z position velocity
       PhotoCards.scale scaleVelocity fst snd].
  unfold SPRING_STIFFNESS, SPRING_DAMPING, SCALE_STIFFNESS, SCALE_DAMPING.
  repeat first [ rewrite (Qeq_eqR _ _ (Qred_correct _))
               | rewrite Q2R_plus | rewrite Q2R_mult
               | rewrite Q2R_opp | rewrite Q2R_minus ].
  unfold dtQ.
  repeat split; try (f_equal; lra); lra.
Qed.

Lemma moving_not_stable (spring : SpringState) (s : Q * Q) :
  along_x spring s -> movingQ s = true -> stable cardToGalaxy spring = false.
Proof.
  intros (Hp & Hv & _ & _) Hmove.
  unfold movingQ in Hmove. apply orb_true_iff in Hmove.
  unfold stable. cbv zeta.
  destruct Hmove as [Hm | Hm]; apply Qle_bool_iff, Qle_Rle in Hm.
  - replace (Js.ltb (distanceTo _ _) 0.01) with false; [reflexivity|].
    symmetry. apply ltb_false, Rle_not_lt.
    rewrite Hp. unfold distanceTo, targetPos.
    cbn [cardToGalaxy isFocused state galaxyPosition x y z].
    rewrite Q2R_mult, Q2R_minus in Hm.
    apply sqrt_ge_of_square; lra.
  - replace (Js.ltb (length _) 0.01) with false;
      [now rewrite !andb_false_r|].
    symmetry. apply ltb_false, Rle_not_lt.
    rewrite Hv. unfold length. cbn [x y z].
    rewrite Q2R_mult in Hm.
    apply sqrt_ge_of_square; lra.
Qed.

(** The run on rationals is the run of the frames. *)
Lemma runQ_sound (n : nat) :
  forall (s s' : Q * Q) (r : Refs),
  runQ n s = Some s' ->
  meshRef r <> None ->
  along_x (springRef r) s ->
  along_x (springRef (frames cardToGalaxy (repeat 0.033 n) r)) s'.
Proof.
  induction n as [|n IH]; intros s s' r Hrun Hmesh Hat.
  - cbn in Hrun. injection Hrun as <-. exact Hat.
  - cbn [runQ] in Hrun.
    destruct (movingQ s) eqn:Hmove; [|discriminate].
    cbn [repeat frames].
    apply (IH (stepQ s) s' _ Hrun).
    + unfold useFrame. destruct (meshRef r); [|contradiction].
      destruct (stable cardToGalaxy (springRef r)); discriminate.
    + rewrite springRef_useFrame.
      destruct (meshRef r); [|contradiction].
      rewrite (moving_not_stable _ _ Hat Hmove).
      rewrite Rmin_left by lra.
      now apply integrate_along_x.
Qed.

Lemma mounted_along_x : along_x (springRef (mounted cardToGalaxy 0)) (0%Q, 0%Q).
Proof.
  unfold along_x. cbn. repeat split; try (f_equal; lra); lra.
Qed.

Lemma runQ_29_overshoots :
  exists s, runQ 29 (0%Q, 0%Q) = Some s /\ (1 < fst s)%Q.
Proof.
  eexists. split.
  - vm_compute. reflexivity.
  - vm_compute. reflexivity.
Qed.

(** The card that has to move, mounted at rest one unit short of its
    target along x: after 29 frames of 0.033 its spring position is past
    the target. *)
Lemma position_spring_overshoots :
  x (targetPos cardToGalaxy) = 1
  /\ x (position (springRef (mounted cardToGalaxy 0))) = 0
  /\ 1 < x (position (springRef (frames cardToGalaxy (repeat 0.033 29)
                                   (mounted cardToGalaxy 0)))).
Proof.
  split; [reflexivity|]. split; [reflexivity|].
  destruct runQ_29_overshoots as (s & Hrun & Hlt).
  destruct (runQ_sound 29 _ s (mounted cardToGalaxy 0) Hrun
              ltac:(discriminate) mounted_along_x) as (Hp & _).
  rewrite Hp. cbn [x].
  apply Qlt_Rlt in Hlt. lra.
Qed.

Lemma sqrt_25 : sqrt 25 = 5.
Proof.
  replace 25 with (5 * 5) by lra. apply sqrt_square. lra.
Qed.

Lemma sqrt_30_gt_5 : 5 < sqrt 30.
Proof.
  rewrite <- sqrt_25. apply sqrt_lt_1_alt. lra.
Qed.

(** C4 (as amended).  Both springs are underdamped: for unit mass
    [damping² < 4 * stiffness] (64 < 100 for the position, 100 < 120 for
    the scale), the damping ratio is 0.8 for the position and below 1 for
    the scale.  The integrated motion does overshoot: the card that starts
    at rest one unit short of its target is past the target after 29
    frames of 0.033. *)
Theorem C4_springs_are_underdamped :
  SPRING_DAMPING * SPRING_DAMPING < 4 * SPRING_STIFFNESS
  /\ SCALE_DAMPING * SCALE_DAMPING < 4 * SCALE_STIFFNESS
  /\ Damping.dampingRatio SPRING_STIFFNESS SPRING_DAMPING = 0.8
  /\ Damping.dampingRatio SCALE_STIFFNESS SCALE_DAMPING < 1
  /\ x (position (springRef (mounted cardToGalaxy 0)))
     < x (targetPos cardToGalaxy)
     < x (position (springRef (frames cardToGalaxy (repeat 0.033 29)
                                 (mounted cardToGalaxy 0)))).
Proof.
  unfold Damping.dampingRatio, SPRING_DAMPING, SPRING_STIFFNESS,
    SCALE_DAMPING, SCALE_STIFFNESS.
  split; [lra|]. split; [lra|].
  split; [rewrite sqrt_25; lra|].
  split.
  - assert (H := sqrt_30_gt_5).
    apply (Rmult_lt_reg_r (2 * sqrt 30)); [lra|].
    unfold Rdiv. rewrite Rmult_assoc, Rinv_l by lra. lra.
  - destruct position_spring_overshoots as (Ht & H0 & Hover).
    rewrite Ht, H0. lra.
Qed.

End Overshoot.

(** * Further properties of the code *)

(** ** The classifier and the session controller *)

Section ClassifierMore.

Import HandGesture Fixtures Spec SessionSpec.

(** X1.  An absent landmark array, or one of fewer than 21 points, is
    classified [none]; nothing is read from it. *)
Theorem X1_absent_or_short_is_none (landmarks : option (list Landmark)) :
  (forall lm, landmarks = Some lm -> (length lm < 21)%nat) ->
  detectGesture landmarks = Some none.
Proof.
  intros Hshort. destruct landmarks as [lm|]; [|reflexivity].
  apply detectGesture_short. now apply Hshort.
Qed.

Lemma X1_short_witness : detectGesture (Some shortHand) = Some none.
Proof.
  apply (X1_absent_or_short_is_none (Some shortHand)).
  intros lm Hlm. injection Hlm as <-. cbn. lia.
Defined.

(** X2.  On 21 points or more, a thumb tip closer than 0.06 to the index
    tip gives [pinch], whatever the fingers do. *)
Theorem X2_pinch_has_priority (lm : list Landmark) (d : R) :
  (21 <= length lm)%nat ->
  calculateFingerDistance lm 4 8 = Some d ->
  d < 0.06 ->
  detectGesture (Some lm) = Some pinch.
Proof.
  intros Hlong Hd Hlt.
  destruct (long_list_inv lm Hlong)
    as (l0 & l1 & l2 & l3 & l4 & l5 & l6 & l7 & l8 & l9 & l10 & l11 & l12
        & l13 & l14 & l15 & l16 & l17 & l18 & l19 & l20 & more & ->).
  rewrite detectGesture_21.
  assert (Hd' : sqrt ((x l4 - x l8) ^ 2 + (y l4 - y l8) ^ 2
                      + (z l4 - z l8) ^ 2) = d).
  { apply (f_equal (fun o => match o with Some v => v | None => 0 end)) in Hd.
    exact Hd. }
  rewrite Hd'. now rewrite (proj2 (ltb_true d 0.06) Hlt).
Qed.

Lemma pinchedHand_distance :
  exists d, calculateFingerDistance pinchedHand 4 8 = Some d /\ d < 0.06.
Proof.
  eexists. split; [reflexivity|].
  cbn [x y z pt]. apply sqrt_lt_of_square; nra.
Qed.

Lemma X2_pinch_witness : detectGesture (Some pinchedHand) = Some pinch.
Proof.
  destruct pinchedHand_distance as (d & Hd & Hlt).
  apply (X2_pinch_has_priority pinchedHand d); [cbn; lia | exact Hd | exact Hlt].
Defined.

(** X3.  On 21 points or more that are not pinched, the label is decided
    by the number of extended fingers alone: three or four give [open],
    none or one give [fist], and exactly two give [none], whichever two
    they are. *)
Theorem X3_label_by_extended_count
    (l0 l1 l2 l3 l4 l5 l6 l7 l8 l9 l10 l11 l12 l13 l14 l15 l16 l17 l18 l19
     l20 : Landmark) (more : list Landmark) (d : R) :
  let lm := l0 :: l1 :: l2 :: l3 :: l4 :: l5 :: l6 :: l7 :: l8 :: l9 :: l10
            :: l11 :: l12 :: l13 :: l14 :: l15 :: l16 :: l17 :: l18 :: l19
            :: l20 :: more in
  let extendedCount :=
    countTrue [Js.ltb (y l8) (y l5); Js.ltb (y l12) (y l9);
               Js.ltb (y l16) (y l13); Js.ltb (y l20) (y l17)] in
  calculateFingerDistance lm 4 8 = Some d ->
  0.06 <= d ->
  detectGesture (Some lm)
  = Some (if (3 <=? extendedCount)%nat then open
          else if (extendedCount <=? 1)%nat then fist
          else none)
  /\ (extendedCount = 2%nat -> detectGesture (Some lm) = Some none).
Proof.
  intros lm extendedCount Hd Hle.
  assert (Hd' : sqrt ((x l4 - x l8) ^ 2 + (y l4 - y l8) ^ 2
                      + (z l4 - z l8) ^ 2) = d).
  { apply (f_equal (fun o => match o with Some v => v | None => 0 end)) in Hd.
    exact Hd. }
  assert (Heq : detectGesture (Some lm)
    = Some (if (3 <=? extendedCount)%nat then open
            else if (extendedCount <=? 1)%nat then fist
            else none)).
  { unfold lm, extendedCount. rewrite detectGesture_21, Hd'.
    rewrite (proj2 (ltb_false d 0.06)) by lra.
    cbv zeta.
    destruct (Js.ltb (y l8) (y l5)), (Js.ltb (y l12) (y l9)),
             (Js.ltb (y l16) (y l13)), (Js.ltb (y l20) (y l17));
      reflexivity. }
  split; [exact Heq|].
  intros H2. rewrite Heq, H2. reflexivity.
Qed.

Lemma X3_two_fingers_witness :
  detectGesture (Some (syntheticHand true true false false)) = Some none.
Proof.
  destruct (syntheticHand_distance true true false false) as (d & Hd & Hle).
  refine (proj2 (X3_label_by_extended_count _ _ _ _ _ _ _ _ _ _ _ _ _ _ _ _
                   _ _ _ _ _ [] d Hd Hle) _).
  cbn [y pt]. rewrite !ltb_tipY. reflexivity.
Defined.

End ClassifierMore.

Section SessionMore.

Import HandGesture Fixtures Spec SessionSpec.

Context {W : Type}.
Variable onGestureChange : option (GestureType -> W -> W).

Lemma index_none {A : Type} (l : list A) (i : nat) :
  Js.index l i = None <-> (length l <= i)%nat.
Proof. apply nth_error_None. Qed.

Lemma index_some {A : Type} (l : list A) (i : nat) :
  (i < length l)%nat -> exists v, Js.index l i = Some v.
Proof.
  intros Hlt. destruct (Js.index l i) eqn:E; [eauto|].
  apply index_none in E. lia.
Qed.

(** What a frame with a hand of ten points or more does. *)
Lemma onResults_first_hand (lm : list Landmark) (others : list (list Landmark))
    (h : Hook W) :
  (10 <= length lm)%nat ->
  exists palm d,
    Js.index lm 9 = Some palm
    /\ calculateFingerDistance lm 4 8 = Some d
    /\ onResults onGestureChange
         {| multiHandLandmarks := Some (lm :: others) |} h
       = Some {| state := {| gesture := classOf lm;
                             handPosition :=
                               Some {| hx := 1 - x palm; hy := y palm |};
                             pinchDistance := d;
                             isTracking := true |};
                 lastGestureRef := classOf lm;
                 world := if GestureType_eqb (classOf lm) (lastGestureRef h)
                          then world h
                          else callOnGestureChange onGestureChange
                                 (classOf lm) (world h) |}.
Proof.
  intros Hlen.
  destruct (index_some lm 9 ltac:(lia)) as (palm & Hpalm).
  destruct (index_some lm 4 ltac:(lia)) as (p4 & H4).
  destruct (index_some lm 8 ltac:(lia)) as (p8 & H8).
  exists palm. eexists.
  split; [exact Hpalm|].
  split; [unfold calculateFingerDistance; rewrite H4, H8; reflexivity|].
  unfold onResults, classOf. cbn [multiHandLandmarks].
  destruct (detectGesture_total (Some lm)) as (g & Hg). rewrite Hg.
  unfold calculateFingerDistance. rewrite Hpalm, H4, H8.
  cbn [Js.bind].
  destruct (GestureType_eqb g (lastGestureRef h)) eqn:E; cbn [negb].
  - apply GestureType_eqb_eq in E. now rewrite E.
  - reflexivity.
Qed.

Lemma onResults_short_throws (lm : list Landmark)
    (others : list (list Landmark)) (h : Hook W) :
  (length lm < 10)%nat ->
  onResults onGestureChange
    {| multiHandLandmarks := Some (lm :: others) |} h = None.
Proof.
  intros Hlt.
  unfold onResults. cbn [multiHandLandmarks].
  rewrite (detectGesture_short lm) by lia. cbn [Js.bind].
  now rewrite (proj2 (index_none lm 9)) by lia.
Qed.

(** X4.  A frame with a hand throws exactly when the hand has fewer than
    ten points: the palm centre is read at index 9 without a test on the
    length.  A hand of 10 to 20 points is tracked, with the label [none]. *)
Theorem X4_onResults_throws_under_ten_points
    (lm : list Landmark) (others : list (list Landmark)) (h : Hook W) :
  (onResults onGestureChange
     {| multiHandLandmarks := Some (lm :: others) |} h = None
   <-> (length lm < 10)%nat)
  /\ ((10 <= length lm < 21)%nat ->
      exists h',
        onResults onGestureChange
          {| multiHandLandmarks := Some (lm :: others) |} h = Some h'
        /\ gesture (state h') = none
        /\ lastGestureRef h' = none
        /\ isTracking (state h') = true).
Proof.
  split; [split|].
  - intros Hnone.
    destruct (Nat.lt_ge_cases (length lm) 10) as [Hlt|Hge]; [exact Hlt|].
    destruct (onResults_first_hand lm others h Hge) as (palm & d & _ & _ & Hr).
    congruence.
  - apply onResults_short_throws.
  - intros [Hge Hlt].
    destruct (onResults_first_hand lm others h Hge) as (palm & d & _ & _ & Hr).
    eexists. split; [exact Hr|].
    cbn [state gesture lastGestureRef isTracking].
    unfold classOf. rewrite (detectGesture_short lm Hlt). now repeat split.
Qed.

End SessionMore.

Section SessionRuns.

Import HandGesture Fixtures Spec SessionSpec.

Lemma X4_short_hand_witness :
  exists h',
    onResults recorder {| multiHandLandmarks := Some [shortHand] |}
      trackingFist = Some h'
    /\ gesture (state h') = none
    /\ lastGestureRef h' = none
    /\ isTracking (state h') = true.
Proof.
  apply (proj2 (X4_onResults_throws_under_ten_points recorder shortHand []
                  trackingFist)).
  cbn. lia.
Defined.

(** One frame, whatever it carries, when it does not throw. *)
Lemma onResults_cases {W : Type}
    (cb : option (GestureType -> W -> W)) (r : Results) (h h' : Hook W) :
  onResults cb r h = Some h' ->
  (handLabels [r] = []
   /\ lastGestureRef h' = lastGestureRef h /\ world h' = world h
   /\ gesture (state h') = gesture (state h)
   /\ isTracking (state h') = false /\ handPosition (state h') = None)
  \/ (exists g, handLabels [r] = [g]
      /\ lastGestureRef h' = g /\ gesture (state h') = g
      /\ world h' = (if GestureType_eqb g (lastGestureRef h) then world h
                     else callOnGestureChange cb g (world h))
      /\ isTracking (state h') = true /\ handPosition (state h') <> None).
Proof.
  intros Hr. unfold handLabels. cbn [flat_map]. rewrite app_nil_r.
  destruct r as [[[|lm others]|]].
  - left. cbn in Hr. injection Hr as <-. now repeat split.
  - right. exists (classOf lm).
    destruct (Nat.lt_ge_cases (length lm) 10) as [Hlt|Hge].
    + rewrite (onResults_short_throws cb lm others h Hlt) in Hr.
      discriminate.
    + destruct (onResults_first_hand cb lm others h Hge)
        as (palm & d & _ & _ & Hr').
      rewrite Hr' in Hr. injection Hr as <-.
      cbn. repeat split; discriminate.
  - left. cbn in Hr. injection Hr as <-. now repeat split.
Qed.

Lemma handLabels_cons (r : Results) (rest : list Results) :
  handLabels (r :: rest) = handLabels [r] ++ handLabels rest.
Proof.
  unfold handLabels. cbn [flat_map]. now rewrite app_nil_r.
Qed.

Lemma last_app_default {A : Type} (a b : list A) (d : A) :
  last (a ++ b) d = last b (last a d).
Proof.
  revert d; induction a as [|v a IH]; intros d; [reflexivity|].
  change ((v :: a) ++ b) with (v :: (a ++ b)).
  now rewrite !last_cons, IH.
Qed.

Lemma changes_app (last : GestureType) (a b : list GestureType) :
  changes last (a ++ b) = changes last a ++ changes (List.last a last) b.
Proof.
  revert last; induction a as [|g a IH]; intros last; [reflexivity|].
  rewrite last_cons. cbn [app changes].
  destruct (GestureType_eqb g last); rewrite IH; reflexivity.
Qed.

Lemma changes_noRepeat (last : GestureType) (gs : list GestureType) :
  noRepeat last (changes last gs).
Proof.
  revert last; induction gs as [|g gs IH]; intros last; [exact I|].
  cbn [changes].
  destruct (GestureType_eqb g last) eqn:E.
  - apply GestureType_eqb_eq in E. subst g. apply IH.
  - split; [|apply IH].
    intros ->. destruct last; discriminate.
Qed.

Lemma changes_length (last : GestureType) (gs : list GestureType) :
  (length (changes last gs) <= length gs)%nat.
Proof.
  revert last; induction gs as [|g gs IH]; intros last; [apply le_n|].
  cbn [changes]. destruct (GestureType_eqb g last); cbn [length];
    specialize (IH g); lia.
Qed.

(** X5.  Edge triggering over any run of frames, with or without a hand,
    that does not throw: the callback has been called with exactly the
    labels of the hand frames that differ from the label of the hand frame
    before them (frames without a hand in between do not count), so never
    twice in a row with the same label, and at most once per hand frame. *)
Theorem X5_callback_log_is_the_label_changes (frames : list Results) :
  forall (h h' : Hook (list GestureType)),
  feed recorder frames h = Some h' ->
  world h' = world h ++ changes (lastGestureRef h) (handLabels frames)
  /\ lastGestureRef h' = last (handLabels frames) (lastGestureRef h)
  /\ noRepeat (lastGestureRef h)
       (changes (lastGestureRef h) (handLabels frames))
  /\ (length (world h') <= length (world h) + length (handLabels frames))%nat.
Proof.
  assert (core : forall (h h' : Hook (list GestureType)),
    feed recorder frames h = Some h' ->
    world h' = world h ++ changes (lastGestureRef h) (handLabels frames)
    /\ lastGestureRef h' = last (handLabels frames) (lastGestureRef h)).
  { induction frames as [|r rest IH]; intros h h' Hfeed.
    - cbn in Hfeed. injection Hfeed as <-. cbn. now rewrite app_nil_r.
    - cbn [feed] in Hfeed.
      destruct (onResults recorder r h) as [h1|] eqn:Hr; [|discriminate].
      cbn [Js.bind] in Hfeed.
      destruct (IH h1 h' Hfeed) as [Hw Hl].
      rewrite handLabels_cons, changes_app, last_app_default.
      destruct (onResults_cases recorder r h h1 Hr)
        as [(Hlab & Hlast & Hworld & _) | (g & Hlab & Hlast & _ & Hworld & _)];
        rewrite Hlab.
      + cbn [changes app last]. rewrite Hw, Hl, Hlast, Hworld.
        split; reflexivity.
      + cbn [changes last]. rewrite Hw, Hl, Hlast, Hworld.
        split; [|reflexivity].
        destruct (GestureType_eqb g (lastGestureRef h)); cbn [app];
          [reflexivity|].
        cbn [callOnGestureChange recorder]. now rewrite <- app_assoc. }
  intros h h' Hfeed. destruct (core h h' Hfeed) as [Hw Hl].
  split; [exact Hw|]. split; [exact Hl|].
  split; [apply changes_noRepeat|].
  rewrite Hw, length_app.
  pose proof (changes_length (lastGestureRef h) (handLabels frames)). lia.
Qed.

End SessionRuns.

Section SessionInvariants.

Import HandGesture Fixtures Spec SessionSpec.

Lemma classOf_not_pointing (lm : list Landmark) : classOf lm <> pointing.
Proof.
  unfold classOf.
  destruct (Nat.ltb_spec (length lm) 21) as [Hshort|Hlong].
  - rewrite (detectGesture_short lm Hshort). discriminate.
  - destruct (long_list_inv lm Hlong)
      as (l0 & l1 & l2 & l3 & l4 & l5 & l6 & l7 & l8 & l9 & l10 & l11 & l12
          & l13 & l14 & l15 & l16 & l17 & l18 & l19 & l20 & more & ->).
    rewrite detectGesture_21.
    destruct (Js.ltb _ 0.06); [discriminate|].
    cbv zeta.
    destruct (Js.ltb (y l8) (y l5)), (Js.ltb (y l12) (y l9)),
             (Js.ltb (y l16) (y l13)), (Js.ltb (y l20) (y l17));
      cbn; discriminate.
Qed.

Lemma classOf_fistHand : classOf (syntheticHand false false false false) = fist.
Proof. unfold classOf. now rewrite detectGesture_fistHand. Qed.

Lemma classOf_openHand : classOf (syntheticHand true true true true) = open.
Proof. unfold classOf. now rewrite detectGesture_openHand. Qed.

(** A run whose hands all have ten points or more does not throw. *)
Lemma feed_succeeds {W : Type} (cb : option (GestureType -> W -> W))
    (frames : list Results) :
  Forall (fun r => forall lm others,
            multiHandLandmarks r = Some (lm :: others) ->
            (10 <= length lm)%nat) frames ->
  forall h, exists h', feed cb frames h = Some h'.
Proof.
  induction 1 as [|r rest Hr _ IH]; intros h; [now exists h|].
  cbn [feed].
  assert (Hstep : exists h1, onResults cb r h = Some h1).
  { destruct r as [[[|lm others]|]]; try (eexists; reflexivity).
    destruct (onResults_first_hand cb lm others h (Hr lm others eq_refl))
      as (palm & d & _ & _ & Hres).
    eauto. }
  destruct Hstep as (h1 & ->). cbn [Js.bind]. apply IH.
Qed.

(** The scenario of X5: a fist, tracking lost for two frames, the fist
    again, then an open hand: two calls, not three. *)
Lemma X5_tracking_loss_witness :
  exists h',
    feed recorder
      [fistFrame; {| multiHandLandmarks := Some [] |};
       {| multiHandLandmarks := None |}; fistFrame; openFrame]
      (mount []) = Some h'
    /\ world h' = [fist; open].
Proof.
  set (frames := [fistFrame; {| multiHandLandmarks := Some [] |};
                  {| multiHandLandmarks := None |}; fistFrame; openFrame]).
  destruct (feed_succeeds recorder frames) with (h := mount (@nil GestureType))
    as (h' & Hfeed).
  { repeat constructor; intros lm others Heq; try discriminate;
      injection Heq as <- _; cbn; lia. }
  exists h'. split; [exact Hfeed|].
  destruct (X5_callback_log_is_the_label_changes frames _ _ Hfeed)
    as (Hw & _).
  rewrite Hw. unfold frames, handLabels, fistFrame, openFrame, handFrame.
  cbn [flat_map multiHandLandmarks app mount world lastGestureRef].
  rewrite classOf_fistHand, classOf_openHand. reflexivity.
Defined.

(** X6.  Along any run from the mounted hook that does not throw: the
    gesture of the state is the stored last gesture, it is never
    [pointing], and the hand position is present exactly when
    [isTracking] is true. *)
Theorem X6_state_invariants {W : Type}
    (cb : option (GestureType -> W -> W)) (frames : list Results) (w : W)
    (h : Hook W) :
  feed cb frames (mount w) = Some h ->
  gesture (state h) = lastGestureRef h
  /\ gesture (state h) <> pointing
  /\ (isTracking (state h) = true <-> handPosition (state h) <> None).
Proof.
  assert (step : forall frames (h0 h1 : Hook W),
    feed cb frames h0 = Some h1 ->
    (gesture (state h0) = lastGestureRef h0
     /\ gesture (state h0) <> pointing
     /\ (isTracking (state h0) = true <-> handPosition (state h0) <> None)) ->
    gesture (state h1) = lastGestureRef h1
    /\ gesture (state h1) <> pointing
    /\ (isTracking (state h1) = true <-> handPosition (state h1) <> None)).
  { clear. induction frames as [|r rest IH]; intros h0 h1 Hfeed Hinv.
    - cbn in Hfeed. now injection Hfeed as <-.
    - cbn [feed] in Hfeed.
      destruct (onResults cb r h0) as [hm|] eqn:Hr; [|discriminate].
      cbn [Js.bind] in Hfeed. apply (IH hm h1 Hfeed).
      destruct Hinv as (Hg & Hp & Ht).
      destruct (onResults_cases cb r h0 hm Hr)
        as [(_ & Hlast & _ & Hgest & Htr & Hpos)
           | (g & Hlab & Hlast & Hgest & _ & Htr & Hpos)].
      + rewrite Hgest, Hlast, Htr, Hpos.
        split; [exact Hg|]. split; [exact Hp|].
        split; [discriminate|congruence].
      + rewrite Hgest, Hlast, Htr.
        split; [reflexivity|]. split; [|tauto].
        destruct r as [[[|lm others]|]]; try discriminate.
        unfold handLabels in Hlab. cbn in Hlab. injection Hlab as <-.
        apply classOf_not_pointing. }
  intros Hfeed. apply (step frames (mount w) h Hfeed).
  cbn. split; [reflexivity|]. split; [discriminate|].
  split; [discriminate|congruence].
Qed.

Lemma X6_invariants_witness :
  exists h,
    feed recorder [fistFrame; {| multiHandLandmarks := None |}; openFrame]
      (mount []) = Some h
    /\ gesture (state h) = lastGestureRef h
    /\ gesture (state h) <> pointing.
Proof.
  destruct (feed_succeeds recorder
              [fistFrame; {| multiHandLandmarks := None |}; openFrame])
    with (h := mount (@nil GestureType)) as (h & Hfeed).
  { repeat constructor; intros lm others Heq; try discriminate;
      injection Heq as <- _; cbn; lia. }
  exists h. split; [exact Hfeed|].
  destruct (X6_state_invariants recorder _ [] h Hfeed) as (Hg & Hp & _).
  split; assumption.
Defined.

(** X7.  The finger distance does not depend on the order of the two
    fingers, is never negative, is 0 from a finger to itself, and is
    missing (a throw) exactly when one of the two indices is outside the
    landmark array. *)
Theorem X7_finger_distance (landmarks : list Landmark) (a b : nat) :
  calculateFingerDistance landmarks a b
  = calculateFingerDistance landmarks b a
  /\ (forall d, calculateFingerDistance landmarks a b = Some d -> 0 <= d)
  /\ (forall d, calculateFingerDistance landmarks a a = Some d -> d = 0)
  /\ (calculateFingerDistance landmarks a b = None
      <-> (length landmarks <= a \/ length landmarks <= b)%nat).
Proof.
  unfold calculateFingerDistance.
  split; [|split; [|split]].
  - destruct (Js.index landmarks a) as [p|], (Js.index landmarks b) as [q|];
      cbn [Js.bind]; try reflexivity.
    do 2 f_equal. ring.
  - intros d.
    destruct (Js.index landmarks a) as [p|], (Js.index landmarks b) as [q|];
      cbn [Js.bind]; try discriminate.
    intros Hd. injection Hd as <-. apply sqrt_pos.
  - intros d.
    destruct (Js.index landmarks a) as [p|]; cbn [Js.bind]; try discriminate.
    intros Hd. injection Hd as <-.
    match goal with |- sqrt ?e = 0 => replace e with 0 by ring end.
    apply sqrt_0.
  - rewrite <- !index_none.
    destruct (Js.index landmarks a) as [p|], (Js.index landmarks b) as [q|];
      cbn [Js.bind]; split; intros H; try discriminate; try tauto;
      destruct H; discriminate.
Qed.

Lemma X7_finger_distance_witness :
  exists d,
    calculateFingerDistance (syntheticHand true true true true) 4 8 = Some d
    /\ 0 <= d.
Proof.
  destruct (syntheticHand_distance true true true true) as (d & Hd & _).
  exists d. split; [exact Hd|].
  exact (proj1 (proj2 (X7_finger_distance
                         (syntheticHand true true true true) 4 8)) d Hd).
Defined.

End SessionInvariants.

(** ** Camera permission *)

Section PermissionProps.

Import Permission.

(** X8.  A call made while another is initializing writes nothing.
    Otherwise the call first sets [isInitializing] and the permission
    ['pending'], and leaves [isInitializing] false and the permission
    ['granted'] when every awaited call resolved and ['denied'] when any of
    them rejected, the tracker's included; it never leaves ['pending'] or
    ['prompt']. *)
Theorem X8_request_ends_granted_or_denied (o : Outcome) (s : Session) :
  (isInitializing s = true -> request o s = s)
  /\ (isInitializing s = false ->
      (exists rest,
         requestCameraPermission false o
         = setIsInitializing true :: setCameraPermission pending :: rest)
      /\ isInitializing (request o s) = false
      /\ cameraPermission (request o s)
         = match o with None => granted | Some _ => denied end).
Proof.
  split; intros Hinit; unfold request; rewrite Hinit.
  - reflexivity.
  - split; [eexists; reflexivity|].
    destruct o as [[]|]; cbn; split; reflexivity.
Qed.

Lemma X8_request_witness :
  isInitializing (request (Some cameraStart) initial) = false
  /\ cameraPermission (request (Some cameraStart) initial) = denied.
Proof.
  exact (proj2 (proj2 (X8_request_ends_granted_or_denied (Some cameraStart)
                         initial) eq_refl)).
Defined.

(** X9.  No call releases what it or an earlier call acquired: the video
    elements in the document do not decrease, and a tracker or a camera
    that is referenced stays referenced, also when the call ends
    ['denied'].  The cleanup removes one video element at most: after two
    calls that each got as far as appending one, one is left in the
    document, and the tracker keeps its callback. *)
Theorem X9_requests_release_nothing (o1 o2 : Outcome) (s : Session) :
  isInitializing s = false ->
  ((videos s <= videos (request o1 s))%nat
   /\ (handsRef s = true -> handsRef (request o1 s) = true)
   /\ (cameraRef s <> None -> cameraRef (request o1 s) <> None))
  /\ (appendsVideo o1 -> appendsVideo o2 ->
      let s2 := request o2 (request o1 s) in
      videos s2 = S (S (videos s))
      /\ videos (cleanup s2) = S (videos s)
      /\ handsRef (cleanup s2) = true
      /\ cameraRef (cleanup s2) = Some stopped).
Proof.
  intros Hinit. split.
  - unfold request. rewrite Hinit.
    destruct o1 as [[]|]; cbn; repeat split; intros; try lia;
      try assumption; try discriminate.
  - intros [-> | ->] [-> | ->]; unfold request; rewrite Hinit; cbn;
      repeat split.
Qed.

Lemma X9_two_requests_witness :
  videos (cleanup (request None (request (Some cameraStart) initial))) = 1%nat.
Proof.
  destruct (X9_requests_release_nothing (Some cameraStart) None initial
              eq_refl) as (_ & Hleak).
  destruct (Hleak (or_intror eq_refl) (or_introl eq_refl)) as (_ & Hv & _).
  exact Hv.
Defined.

End PermissionProps.

(** ** Layout of the photo cards *)

Section PhotoLayoutProps.

Import ParticleSystem PhotoLayout.

Lemma sin2_cos2_mult (a : R) : sin a * sin a + cos a * cos a = 1.
Proof. exact (sin2_cos2 a). Qed.




(** X11.  A galaxy position of a photo card lies on the ellipsoid
    [x² + (2y)² + z² = radius²] with radius [4 + 6 * random1] in [4, 10):
    a sphere flattened to half its height.  So the card is at least 2 and
    less than 10 away from the centre, and its z is
    [radius * (2 * random3 - 1)]. *)
Theorem X11_galaxy_photo_on_flattened_sphere (random1 random2 random3 : R) :
  0 <= random1 < 1 -> 0 <= random3 <= 1 ->
  let p := generateGalaxyPhotoPosition random1 random2 random3 in
  let radius := 4 + random1 * 6 in
  4 <= radius < 10
  /\ t0 p * t0 p + (2 * t1 p) * (2 * t1 p) + t2 p * t2 p = radius * radius
  /\ 2 * 2 <= t0 p * t0 p + t1 p * t1 p + t2 p * t2 p < 10 * 10
  /\ t2 p = radius * (2 * random3 - 1).
Proof.
  intros H1 H3 p radius.
  unfold p, radius, generateGalaxyPhotoPosition, t0, t1, t2.
  cbv zeta. cbn [fst snd].
  set (rad := 4 + random1 * 6).
  set (phi := acos (2 * random3 - 1)).
  set (theta := random2 * PI * 2).
  assert (Hrad : 4 <= rad < 10) by (unfold rad; lra).
  assert (Hp := sin2_cos2_mult phi).
  assert (Ht := sin2_cos2_mult theta).
  assert (Hell : rad * sin phi * cos theta * (rad * sin phi * cos theta)
                 + 2 * (rad * sin phi * sin theta * 0.5)
                   * (2 * (rad * sin phi * sin theta * 0.5))
                 + rad * cos phi * (rad * cos phi) = rad * rad).
  { replace 0.5 with (/ 2) by lra.
    replace (rad * sin phi * cos theta * (rad * sin phi * cos theta)
             + 2 * (rad * sin phi * sin theta * / 2)
               * (2 * (rad * sin phi * sin theta * / 2))
             + rad * cos phi * (rad * cos phi))
      with (rad * rad
            * (sin phi * sin phi * (sin theta * sin theta
                                    + cos theta * cos theta)
               + cos phi * cos phi)) by field.
    rewrite Ht, Rmult_1_r, Hp. ring. }
  split; [exact Hrad|]. split; [exact Hell|]. split.
  - set (u := rad * sin phi * cos theta) in *.
    set (v := rad * sin phi * sin theta * 0.5) in *.
    set (w := rad * cos phi) in *.
    assert (0 <= u * u) by nra. assert (0 <= v * v) by nra.
    assert (0 <= w * w) by nra.
    split; nra.
  - unfold phi. rewrite cos_acos by lra. reflexivity.
Qed.

Lemma X11_galaxy_photo_witness :
  2 * 2 <= t0 (generateGalaxyPhotoPosition 0.5 0.25 0.5)
           * t0 (generateGalaxyPhotoPosition 0.5 0.25 0.5)
         + t1 (generateGalaxyPhotoPosition 0.5 0.25 0.5)
           * t1 (generateGalaxyPhotoPosition 0.5 0.25 0.5)
         + t2 (generateGalaxyPhotoPosition 0.5 0.25 0.5)
           * t2 (generateGalaxyPhotoPosition 0.5 0.25 0.5) < 10 * 10.
Proof.
  destruct (X11_galaxy_photo_on_flattened_sphere 0.5 0.25 0.5
              ltac:(lra) ltac:(lra)) as (_ & _ & Hd & _).
  exact Hd.
Defined.

End PhotoLayoutProps.

Section MapWithIndex.

Import PhotoLayout.

Lemma mapi_length {A B : Type} (f : A -> nat -> B) (l : list A) :
  forall s, length (mapi f s l) = length l.
Proof.
  induction l as [|v l IH]; intros s; [reflexivity|].
  cbn [mapi length]. now rewrite IH.
Qed.

Lemma mapi_nth_error {A B : Type} (f : A -> nat -> B) (l : list A) :
  forall s i,
  nth_error (mapi f s l) i
  = option_map (fun v => f v (s + i)%nat) (nth_error l i).
Proof.
  induction l as [|v l IH]; intros s i.
  - now destruct i.
  - destruct i as [|i]; cbn [mapi nth_error option_map].
    + now rewrite Nat.add_0_r.
    + rewrite IH. now rewrite Nat.add_succ_r.
Qed.

Lemma count_focused {A : Type} (f : A -> nat -> PhotoCards.Props)
    (k : nat) (l : list A) :
  (forall v i, PhotoCards.isFocused (f v i) = (k =? i)%nat) ->
  forall s,
  length (filter PhotoCards.isFocused (mapi f s l))
  = if (s <=? k)%nat && (k <? s + length l)%nat then 1%nat else 0%nat.
Proof.
  intros Hf. induction l as [|v l IH]; intros s.
  - cbn [mapi filter length].
    destruct (Nat.leb_spec s k), (Nat.ltb_spec k (s + 0)); cbn; try lia.
  - cbn [mapi filter length]. rewrite Hf.
    destruct (Nat.eqb_spec k s) as [->|Hne]; cbn [length]; rewrite IH.
    + destruct (Nat.leb_spec (S s) s), (Nat.leb_spec s s),
        (Nat.ltb_spec s (s + S (length l))); cbn; lia.
    + destruct (Nat.leb_spec (S s) k), (Nat.leb_spec s k),
        (Nat.ltb_spec k (S s + length l)), (Nat.ltb_spec k (s + S (length l)));
        cbn; lia.
Qed.

Lemma count_unfocused {A : Type} (f : A -> nat -> PhotoCards.Props)
    (l : list A) :
  (forall v i, PhotoCards.isFocused (f v i) = false) ->
  forall s, length (filter PhotoCards.isFocused (mapi f s l)) = 0%nat.
Proof.
  intros Hf. induction l as [|v l IH]; intros s; [reflexivity|].
  cbn [mapi filter]. rewrite Hf. apply IH.
Qed.

End MapWithIndex.

Section PhotoCardsComponent.

Import ParticleSystem PhotoLayout.

Variable Url : Type.
Variable placeholders : list Url.
Hypothesis twelve_placeholders : length placeholders = 12%nat.




(** X13.  At most one card is focused: exactly the card whose index is
    [focusedIndex] when there is such a card, and none when
    [focusedIndex] is null or not below the number of cards. *)
Theorem X13_at_most_one_focused_card
    (state : TreeState) (focusedIndex : option nat)
    (photos : option (list Url)) (draws : nat -> R * R * R) :
  let props := cardProps Url placeholders state focusedIndex photos draws in
  let cards := photoData Url placeholders photos draws in
  length props = length cards
  /\ length (filter PhotoCards.isFocused props)
     = match focusedIndex with
       | Some k => if (k <? length cards)%nat then 1%nat else 0%nat
       | None => 0%nat
       end
  /\ forall i p, nth_error props i = Some p ->
     PhotoCards.isFocused p = true -> focusedIndex = Some i.
Proof using Url placeholders.
  intros props cards. unfold props, cardProps. fold cards.
  split; [apply mapi_length|]. split.
  - destruct focusedIndex as [k|].
    + rewrite (count_focused _ k); [|reflexivity].
      now cbn [Nat.leb andb Nat.add].
    + apply count_unfocused. reflexivity.
  - intros i p Hi Hf.
    rewrite mapi_nth_error in Hi.
    destruct (nth_error cards i); [|discriminate].
    cbn [option_map Nat.add] in Hi. injection Hi as <-.
    cbn [PhotoCards.isFocused] in Hf.
    destruct focusedIndex as [k|]; [|discriminate].
    apply Nat.eqb_eq in Hf. now subst.
Qed.

End PhotoCardsComponent.


Lemma X13_focus_witness :
  length (filter PhotoCards.isFocused
            (PhotoLayout.cardProps nat (seq 0 12) tree (Some 2%nat) None
               (fun _ => (0%R, 0%R, 0%R))))
  = if (2 <? length (PhotoLayout.photoData nat (seq 0 12) None
                       (fun _ => (0%R, 0%R, 0%R))))%nat
    then 1%nat else 0%nat.
Proof.
  exact (proj1 (proj2 (X13_at_most_one_focused_card nat (seq 0 12)
                         tree (Some 2%nat) None
                         (fun _ => (0%R, 0%R, 0%R))))).
Defined.

(** ** More on the photo-card frame *)

Section PhotoFrameMore.

Import THREE PhotoCards Fixtures SpringEnergy.



(** One semi-implicit Euler step of a damped unit-mass spring does not
    raise [k e² + v²] when the step is short enough for the constants. *)
Lemma euler_step_energy (k c dt e v : R) :
  0 < k -> 0 <= dt -> k * dt * dt < 1 -> (c * c + k) * dt <= 2 * c ->
  let v' := v + (- k * e + - c * v) * dt in
  let e' := e + v' * dt in
  k * (e' * e') + v' * v' <= k * (e * e) + v * v.
Proof.
  intros Hk Hdt Hsmall Hdamp v' e'.
  destruct (Req_dec dt 0) as [Hz|Hnz].
  - unfold e', v'. rewrite Hz. right. ring.
  - assert (Hpos : 0 < dt) by lra.
    set (a := 1 - c * dt).
    set (A := k * k * dt * dt * (1 - k * dt * dt)).
    set (B := 2 * k * k * a * dt * dt * dt).
    set (C := 1 - a * a * (1 + k * dt * dt)).
    assert (HA : 0 < A).
    { unfold A. apply Rmult_lt_0_compat; [|lra].
      repeat apply Rmult_lt_0_compat; assumption. }
    assert (Hdiff : k * (e * e) + v * v - (k * (e' * e') + v' * v')
                    = A * (e * e) + B * (e * v) + C * (v * v)).
    { unfold e', v', A, B, C, a. ring. }
    assert (Hdisc : 4 * A * C - B * B
                    = 4 * (k * k * dt * dt) * (dt * (2 * c - (c * c + k) * dt))).
    { unfold A, B, C, a. ring. }
    assert (Hq : 0 <= 4 * A * C - B * B).
    { rewrite Hdisc.
      apply Rmult_le_pos; [|apply Rmult_le_pos; lra].
      apply Rmult_le_pos; [lra|].
      apply Rlt_le. repeat apply Rmult_lt_0_compat; assumption. }
    assert (Hsq : 4 * A * (A * (e * e) + B * (e * v) + C * (v * v))
                  = (2 * A * e + B * v) * (2 * A * e + B * v)
                    + (4 * A * C - B * B) * (v * v)) by ring.
    assert (Hge : 0 <= 4 * A * (A * (e * e) + B * (e * v) + C * (v * v))).
    { rewrite Hsq. apply Rplus_le_le_0_compat.
      - apply Rle_0_sqr.
      - apply Rmult_le_pos; [exact Hq|]. apply Rle_0_sqr. }
    assert (Hfin : 0 <= A * (e * e) + B * (e * v) + C * (v * v)).
    { apply (Rmult_le_reg_l (4 * A)); [lra|]. now rewrite Rmult_0_r. }
    lra.
Qed.

Lemma integrate_energy (p : Props) (dt : R) (s : SpringState) :
  0 <= dt <= 0.033 ->
  positionEnergy p (integrate p dt s) <= positionEnergy p s
  /\ scaleEnergy p (integrate p dt s) <= scaleEnergy p s.
Proof.
  intros Hdt.
  unfold positionEnergy, scaleEnergy, integrate, normSquared.
  generalize (targetPos p) (targetScale p). intros [tx ty tz] ts.
  destruct s as [[qx qy qz] [vx vy vz] sc sv].
  unfold add, multiplyScalar, subVectors.
  cbn [x y z position velocity PhotoCards.scale scaleVelocity].
  unfold SPRING_STIFFNESS, SPRING_DAMPING, SCALE_STIFFNESS, SCALE_DAMPING.
  assert (H25 : 25 * dt * dt < 1) by nra.
  assert (H30 : 30 * dt * dt < 1) by nra.
  assert (Hx := euler_step_energy 25 8 dt (qx - tx) vx ltac:(lra)
                  (proj1 Hdt) H25 ltac:(lra)).
  assert (Hy := euler_step_energy 25 8 dt (qy - ty) vy ltac:(lra)
                  (proj1 Hdt) H25 ltac:(lra)).
  assert (Hz := euler_step_energy 25 8 dt (qz - tz) vz ltac:(lra)
                  (proj1 Hdt) H25 ltac:(lra)).
  assert (Hs := euler_step_energy 30 10 dt (sc - ts) sv ltac:(lra)
                  (proj1 Hdt) H30 ltac:(lra)).
  cbv zeta in Hx, Hy, Hz, Hs.
  split.
  - match goal with
    | |- ?l <= ?r =>
      replace l with
        ((25 * ((qx - tx + (vx + (-25 * (qx - tx) + -8 * vx) * dt) * dt)
                * (qx - tx + (vx + (-25 * (qx - tx) + -8 * vx) * dt) * dt))
          + (vx + (-25 * (qx - tx) + -8 * vx) * dt)
            * (vx + (-25 * (qx - tx) + -8 * vx) * dt))
         + (25 * ((qy - ty + (vy + (-25 * (qy - ty) + -8 * vy) * dt) * dt)
                  * (qy - ty + (vy + (-25 * (qy - ty) + -8 * vy) * dt) * dt))
            + (vy + (-25 * (qy - ty) + -8 * vy) * dt)
              * (vy + (-25 * (qy - ty) + -8 * vy) * dt))
         + (25 * ((qz - tz + (vz + (-25 * (qz - tz) + -8 * vz) * dt) * dt)
                  * (qz - tz + (vz + (-25 * (qz - tz) + -8 * vz) * dt) * dt))
            + (vz + (-25 * (qz - tz) + -8 * vz) * dt)
              * (vz + (-25 * (qz - tz) + -8 * vz) * dt))) by ring
    end.
    lra.
  - match goal with
    | |- ?l <= ?r =>
      replace l with
        (30 * ((sc - ts + (sv + (-30 * (sc - ts) + -10 * sv) * dt) * dt)
               * (sc - ts + (sv + (-30 * (sc - ts) + -10 * sv) * dt) * dt))
         + (sv + (-30 * (sc - ts) + -10 * sv) * dt)
           * (sv + (-30 * (sc - ts) + -10 * sv) * dt)) by ring
    end.
    lra.
Qed.

End PhotoFrameMore.

Section PhotoFrameEnergy.

Import THREE PhotoCards Fixtures SpringEnergy.

Lemma useFrame_energy (p : Props) (delta : R) (r : Refs) :
  0 <= delta ->
  positionEnergy p (springRef (useFrame p delta r))
    <= positionEnergy p (springRef r)
  /\ scaleEnergy p (springRef (useFrame p delta r))
       <= scaleEnergy p (springRef r).
Proof.
  intros Hpos. rewrite springRef_useFrame.
  destruct (meshRef r); [|split; apply Rle_refl].
  destruct (stable p (springRef r)); [split; apply Rle_refl|].
  apply integrate_energy.
  split; [apply Rmin_glb; lra | apply Rmin_r].
Qed.

Lemma normSquared_nonneg (v : Vector3) : 0 <= normSquared v.
Proof. unfold normSquared. nra. Qed.

(** X15.  Over frames whose [delta] is not negative, under unchanged
    props, the energies of the two springs, stiffness times squared error
    plus squared speed, never grow: the clamp of the time step to 0.033
    keeps the integration stable.  So a card released at rest is never
    farther from its target than where it started, and its scale error
    never exceeds the one it started with. *)
Theorem X15_spring_energy_never_grows (p : Props) (deltas : list R) :
  forall r : Refs,
  Forall (fun delta => 0 <= delta) deltas ->
  let s0 := springRef r in
  let s := springRef (frames p deltas r) in
  positionEnergy p s <= positionEnergy p s0
  /\ scaleEnergy p s <= scaleEnergy p s0
  /\ (velocity s0 = {| x := 0; y := 0; z := 0 |} ->
      normSquared (subVectors (position s) (targetPos p))
        <= normSquared (subVectors (position s0) (targetPos p)))
  /\ (scaleVelocity s0 = 0 ->
      (scale s - targetScale p) * (scale s - targetScale p)
        <= (scale s0 - targetScale p) * (scale s0 - targetScale p)).
Proof.
  assert (core : forall r : Refs,
    Forall (fun delta => 0 <= delta) deltas ->
    positionEnergy p (springRef (frames p deltas r))
      <= positionEnergy p (springRef r)
    /\ scaleEnergy p (springRef (frames p deltas r))
         <= scaleEnergy p (springRef r)).
  { induction deltas as [|delta rest IH]; intros r Hall.
    - split; apply Rle_refl.
    - inversion Hall as [|? ? Hd Hrest]; subst.
      destruct (useFrame_energy p delta r Hd) as [H1 H2].
      destruct (IH (useFrame p delta r) Hrest) as [H3 H4].
      cbn [frames]. split; lra. }
  intros r Hall s0 s. destruct (core r Hall) as [Hp Hs].
  fold s s0 in Hp, Hs.
  split; [exact Hp|]. split; [exact Hs|]. split.
  - intros Hrest. unfold positionEnergy in Hp. rewrite Hrest in Hp.
    unfold SPRING_STIFFNESS in Hp.
    assert (Hv := normSquared_nonneg (velocity s)).
    replace (normSquared {| x := 0; y := 0; z := 0 |}) with 0 in Hp
      by (unfold normSquared; cbn; ring).
    lra.
  - intros Hrest. unfold scaleEnergy in Hs. rewrite Hrest in Hs.
    unfold SCALE_STIFFNESS in Hs.
    assert (Hv : 0 <= scaleVelocity s * scaleVelocity s) by nra.
    lra.
Qed.

Lemma X15_energy_witness :
  positionEnergy cardToGalaxy
    (springRef (frames cardToGalaxy [0.016; 0.02; 0.5]
                  (mounted cardToGalaxy 0)))
  <= positionEnergy cardToGalaxy (springRef (mounted cardToGalaxy 0)).
Proof.
  refine (proj1 (X15_spring_energy_never_grows cardToGalaxy
                   [0.016; 0.02; 0.5] (mounted cardToGalaxy 0) _)).
  repeat constructor; lra.
Defined.

(** Frames of a stable card keep the scale of the rendered group. *)
Lemma frames_stable_mesh_scale (p : Props) (deltas : list R) :
  forall (r : Refs) (mesh : Object3D),
  stable p (springRef r) = true ->
  meshRef r = Some mesh ->
  exists mesh',
    meshRef (frames p deltas r) = Some mesh'
    /\ mesh_scale mesh' = mesh_scale mesh.
Proof.
  induction deltas as [|delta rest IH]; intros r mesh Hst Hmesh.
  - exists mesh. now split.
  - cbn [frames].
    assert (Hstep : exists m1,
      meshRef (useFrame p delta r) = Some m1
      /\ mesh_scale m1 = mesh_scale mesh
      /\ springRef (useFrame p delta r) = springRef r).
    { unfold useFrame. rewrite Hmesh, Hst.
      destruct ((S (frameCountRef r) mod 4 =? 0)%nat && negb (isFocused p));
        eexists; repeat split. }
    destruct Hstep as (m1 & Hm1 & Hs1 & Hspring).
    destruct (IH (useFrame p delta r) m1) as (m' & Hm' & Hs');
      [now rewrite Hspring | exact Hm1 |].
    exists m'. split; [exact Hm'|congruence].
Qed.

Lemma mounted_in_tree_stable (p : Props) (time0 : R) :
  state p = tree -> isFocused p = false ->
  stable p (springRef (mounted p time0)) = true.
Proof.
  intros Hstate Hfocus. apply stable_true.
  unfold targetPos, targetScale. rewrite Hstate, Hfocus.
  cbn [mounted springRef position velocity scale].
  destruct (treePosition p) as [tx ty tz].
  unfold distanceTo, length. cbn [x y z].
  repeat split.
  - apply sqrt_lt_of_square; lra.
  - replace (0.4 - 0.4) with 0 by lra. rewrite Rabs_R0. lra.
  - apply sqrt_lt_of_square; lra.
Qed.

(** X16.  A card mounted in the tree state and not focused is stable from
    its first frame, so no frame ever copies the spring to the group: the
    group keeps the scale 0.5 it was created with, though the spring's
    scale and the target scale are 0.4.  The first frame after the scene
    turns to the galaxy state (the galaxy position being 0.01 or more
    away) integrates and sets the rendered scale to 0.4 at once. *)
Theorem X16_mounted_card_keeps_scale_half
    (p p' : Props) (time0 delta : R) (deltas : list R) :
  state p = tree -> isFocused p = false ->
  treePosition p' = treePosition p -> state p' = galaxy ->
  isFocused p' = false ->
  0.01 <= distanceTo (treePosition p) (galaxyPosition p') ->
  let r := frames p deltas (mounted p time0) in
  targetScale p = 0.4
  /\ scale (springRef r) = 0.4
  /\ (exists mesh,
        meshRef r = Some mesh
        /\ mesh_scale mesh = {| x := 0.5; y := 0.5; z := 1 |})
  /\ (exists mesh',
        meshRef (useFrame p' delta r) = Some mesh'
        /\ mesh_scale mesh' = {| x := 0.4; y := 0.4; z := 1 |}).
Proof.
  intros Hstate Hfocus Htree Hstate' Hfocus' Hfar r.
  assert (Hst := mounted_in_tree_stable p time0 Hstate Hfocus).
  assert (Hspring : springRef r = springRef (mounted p time0))
    by (apply frames_stable; exact Hst).
  destruct (frames_stable_mesh_scale p deltas (mounted p time0) _ Hst eq_refl)
    as (mesh & Hmesh & Hscale).
  fold r in Hmesh.
  split; [unfold targetScale; now rewrite Hfocus|].
  split; [now rewrite Hspring|].
  split; [exists mesh; split; [exact Hmesh | exact Hscale]|].
  assert (Hst' : stable p' (springRef r) = false).
  { rewrite Hspring. unfold stable. cbv zeta.
    replace (Js.ltb (distanceTo _ _) 0.01) with false; [reflexivity|].
    symmetry. apply ltb_false, Rle_not_lt.
    unfold targetPos. rewrite Hfocus', Hstate'.
    exact Hfar. }
  unfold useFrame. rewrite Hmesh, Hst'.
  eexists. split; [reflexivity|].
  cbn [mesh_scale]. rewrite Hspring.
  unfold integrate, targetScale. rewrite Hfocus'.
  cbn [mounted springRef scale scaleVelocity].
  unfold SCALE_STIFFNESS, SCALE_DAMPING.
  f_equal; lra.
Qed.

Lemma X16_mounted_card_witness :
  exists mesh,
    meshRef (frames cardAtRest [0.016; 0.016; 0.016; 0.016]
               (mounted cardAtRest 0)) = Some mesh
    /\ mesh_scale mesh = {| x := 0.5; y := 0.5; z := 1 |}.
Proof.
  refine (proj1 (proj2 (proj2 (X16_mounted_card_keeps_scale_half
    cardAtRest cardToGalaxy 0 0.016 [0.016; 0.016; 0.016; 0.016]
    eq_refl eq_refl eq_refl eq_refl eq_refl _)))).
  unfold distanceTo. cbn. apply sqrt_ge_of_square; lra.
Defined.

End PhotoFrameEnergy.

(** ** Staggered transitions of the particle populations *)

Section Stagger.

Lemma clamp_bounds (s : R) : 0 <= Rmax 0 (Rmin 1 s) <= 1.
Proof.
  split; [apply Rmax_l|].
  apply Rmax_lub; [lra|apply Rmin_l].
Qed.

Lemma clamp_low (s : R) : s <= 0 -> Rmax 0 (Rmin 1 s) = 0.
Proof.
  intros Hs. rewrite Rmin_right by lra. apply Rmax_left. exact Hs.
Qed.

Lemma clamp_high (s : R) : 1 <= s -> Rmax 0 (Rmin 1 s) = 1.
Proof.
  intros Hs. rewrite Rmin_left by lra. apply Rmax_right. lra.
Qed.

Lemma clamp_mono (s s' : R) :
  s <= s' -> Rmax 0 (Rmin 1 s) <= Rmax 0 (Rmin 1 s').
Proof.
  intros Hle. apply Rle_max_compat_l. apply Rle_min_compat_l. exact Hle.
Qed.

Lemma smooth_bounds (q : R) : 0 <= q <= 1 -> 0 <= q * q * (3 - 2 * q) <= 1.
Proof.
  intros [H0 H1]. split; [apply Rmult_le_pos; nra|].
  assert (0 <= (1 - q) * (1 - q) * (1 + 2 * q)) by (apply Rmult_le_pos; nra).
  nra.
Qed.

Lemma smooth_mono (a b : R) :
  0 <= a -> a <= b -> b <= 1 ->
  a * a * (3 - 2 * a) <= b * b * (3 - 2 * b).
Proof.
  intros Ha Hab Hb.
  assert (Hfac : b * b * (3 - 2 * b) - a * a * (3 - 2 * a)
                 = (b - a) * (a * (3 - 2 * a - b) + b * (3 - 2 * b - a)))
    by ring.
  assert (0 <= (b - a) * (a * (3 - 2 * a - b) + b * (3 - 2 * b - a))).
  { apply Rmult_le_pos; [lra|].
    apply Rplus_le_le_0_compat; apply Rmult_le_pos; lra. }
  lra.
Qed.

(** A blend [a + (b - a) * w] with [w] in [0, 1] lies between [a] and
    [b]. *)
Lemma blend_between (a b w : R) :
  0 <= w <= 1 -> Rmin a b <= a + (b - a) * w <= Rmax a b.
Proof.
  intros [H0 H1].
  destruct (Rle_dec a b) as [Hab|Hab].
  - rewrite Rmin_left, Rmax_right by lra. split; nra.
  - rewrite Rmin_right, Rmax_left by lra. split; nra.
Qed.

End Stagger.

Section ParticleStagger.

Import ParticleSystem.

Lemma triple_eta (v : Triple) : (t0 v, t1 v, t2 v) = v.
Proof. now destruct v as [[a b] c]. Qed.

Lemma interpolate_at_zero (progress : R) (particle : Particle) :
  staggeredProgress progress particle = 0 ->
  interpolate progress particle = treePosition particle.
Proof.
  intros Hz. unfold interpolate. rewrite Hz. cbv zeta.
  unfold smoothstep, t0, t1, t2.
  destruct (treePosition particle) as [[a b] c].
  destruct (galaxyPosition particle) as [[a' b'] c'].
  cbn [fst snd]. f_equal; [f_equal|]; ring.
Qed.

Lemma interpolate_at_one (progress : R) (particle : Particle) :
  staggeredProgress progress particle = 1 ->
  interpolate progress particle = galaxyPosition particle.
Proof.
  intros Hz. unfold interpolate. rewrite Hz. cbv zeta.
  unfold smoothstep, t0, t1, t2.
  destruct (treePosition particle) as [[a b] c].
  destruct (galaxyPosition particle) as [[a' b'] c'].
  cbn [fst snd]. f_equal; [f_equal|]; ring.
Qed.

(** X17.  Whatever the progress, also one outside [0, 1], the
    interpolated position of a particle lies between its two endpoints in
    each coordinate; the instance written to the mesh has this x and z and
    a y within 0.02 of it. *)
Theorem X17_particle_stays_between_endpoints
    (time progress : R) (particle : Particle) :
  let v := interpolate progress particle in
  let tp := treePosition particle in
  let gp := galaxyPosition particle in
  let inst := inst_position (instanceOf time progress particle) in
  Rmin (t0 tp) (t0 gp) <= t0 v <= Rmax (t0 tp) (t0 gp)
  /\ Rmin (t1 tp) (t1 gp) <= t1 v <= Rmax (t1 tp) (t1 gp)
  /\ Rmin (t2 tp) (t2 gp) <= t2 v <= Rmax (t2 tp) (t2 gp)
  /\ t0 inst = t0 v /\ t2 inst = t2 v /\ Rabs (t1 inst - t1 v) <= 0.02.
Proof.
  intros v tp gp inst.
  assert (Hw : 0 <= smoothstep (staggeredProgress progress particle) <= 1).
  { unfold smoothstep, staggeredProgress.
    apply smooth_bounds, clamp_bounds. }
  unfold v, interpolate. cbv zeta. fold tp gp.
  unfold t0 at 2, t1 at 2, t2 at 2. cbn [fst snd].
  split; [now apply blend_between|].
  split; [now apply blend_between|].
  split; [now apply blend_between|].
  unfold inst, instanceOf, interpolate. cbv zeta. cbn [inst_position].
  unfold t0, t1, t2. cbn [fst snd].
  split; [reflexivity|]. split; [reflexivity|].
  destruct (SIN_bound (time * speed particle + phase particle)) as [Hlo Hhi].
  apply Rabs_le. unfold tp, gp. lra.
Qed.

(** X18.  A particle has not left its tree position while
    [progress <= delay / 3] and has reached its galaxy position once
    [progress >= (2 + delay) / 3].  With a delay in [0, 1] every particle
    is at its tree position at progress 0 and at its galaxy position at
    progress 1. *)
Theorem X18_particle_start_and_arrival (progress : R) (particle : Particle) :
  (progress <= delay particle / 3 ->
   interpolate progress particle = treePosition particle)
  /\ ((2 + delay particle) / 3 <= progress ->
      interpolate progress particle = galaxyPosition particle)
  /\ (0 <= delay particle <= 1 ->
      interpolate 0 particle = treePosition particle
      /\ interpolate 1 particle = galaxyPosition particle).
Proof.
  split; [|split].
  - intros Hp. apply interpolate_at_zero.
    unfold staggeredProgress. apply clamp_low. lra.
  - intros Hp. apply interpolate_at_one.
    unfold staggeredProgress. apply clamp_high. lra.
  - intros [H0 H1]. split.
    + apply interpolate_at_zero, staggeredProgress_zero. exact H0.
    + apply interpolate_at_one, staggeredProgress_one. exact H1.
Qed.

Lemma X18_particle_witness :
  interpolate 0.9
    {| treePosition := (1, 2, 3); galaxyPosition := (4, 5, 6);
       scale := 0.02; phase := 0; speed := 1; delay := 0.5 |}
  = (4, 5, 6).
Proof.
  apply (proj1 (proj2 (X18_particle_start_and_arrival 0.9
    {| treePosition := (1, 2, 3); galaxyPosition := (4, 5, 6);
       scale := 0.02; phase := 0; speed := 1; delay := 0.5 |}))).
  cbn. lra.
Defined.

(** X19.  The transition is a wave ordered by delay: at any progress a
    particle of smaller delay is at least as far along as one of larger
    delay, and no particle moves back when the progress grows. *)
Theorem X19_wave_is_ordered_by_delay
    (progress progress' : R) (particle particle' : Particle) :
  (delay particle <= delay particle' ->
   smoothstep (staggeredProgress progress particle')
     <= smoothstep (staggeredProgress progress particle))
  /\ (progress <= progress' ->
      smoothstep (staggeredProgress progress particle)
        <= smoothstep (staggeredProgress progress' particle)).
Proof.
  unfold smoothstep, staggeredProgress.
  split; intros Hle.
  - apply smooth_mono;
      [apply clamp_bounds | apply clamp_mono; lra | apply clamp_bounds].
  - apply smooth_mono;
      [apply clamp_bounds | apply clamp_mono; lra | apply clamp_bounds].
Qed.

Lemma X19_wave_witness :
  smoothstep (staggeredProgress 0.5
    {| treePosition := (1, 2, 3); galaxyPosition := (4, 5, 6);
       scale := 0.02; phase := 0; speed := 1; delay := 0.9 |})
  <= smoothstep (staggeredProgress 0.5
    {| treePosition := (0, 0, 0); galaxyPosition := (7, 8, 9);
       scale := 0.02; phase := 0; speed := 1; delay := 0.1 |}).
Proof.
  apply (proj1 (X19_wave_is_ordered_by_delay 0.5 0.5
    {| treePosition := (0, 0, 0); galaxyPosition := (7, 8, 9);
       scale := 0.02; phase := 0; speed := 1; delay := 0.1 |}
    {| treePosition := (1, 2, 3); galaxyPosition := (4, 5, 6);
       scale := 0.02; phase := 0; speed := 1; delay := 0.9 |})).
  cbn. lra.
Defined.

End ParticleStagger.

Section OrnamentsStagger.

Import ParticleSystem.

Lemma blend_at_zero (tp gp : Triple) (p : R) :
  p = 0 ->
  (t0 tp + (t0 gp - t0 tp) * (p * p * (3 - 2 * p)),
   t1 tp + (t1 gp - t1 tp) * (p * p * (3 - 2 * p)),
   t2 tp + (t2 gp - t2 tp) * (p * p * (3 - 2 * p))) = tp.
Proof.
  intros ->. unfold t0, t1, t2. destruct tp as [[a b] c].
  cbn [fst snd]. f_equal; [f_equal|]; ring.
Qed.

Lemma blend_at_one (tp gp : Triple) (p : R) :
  p = 1 ->
  (t0 tp + (t0 gp - t0 tp) * (p * p * (3 - 2 * p)),
   t1 tp + (t1 gp - t1 tp) * (p * p * (3 - 2 * p)),
   t2 tp + (t2 gp - t2 tp) * (p * p * (3 - 2 * p))) = gp.
Proof.
  intros ->. unfold t0, t1, t2. destruct gp as [[a b] c].
  cbn [fst snd]. f_equal; [f_equal|]; ring.
Qed.

(** X20.  A mounted ornament mesh is rewritten whole on every frame, one
    instance per ornament, whatever it held; an unmounted one is left
    alone.  An ornament keeps its own scale, has not left its tree
    position while [1.3 * progress <= 0.3 * delay], and is at its galaxy
    position once [1.3 * progress - 0.3 * delay >= 1]; with a delay in
    [0, 1] that is the case at progress 0 and at progress 1. *)
Theorem X20_ornament_frame
    (ornamentData : list OrnamentBalls.Ornament) (progress : R)
    (old : list OrnamentBalls.Instance) :
  OrnamentBalls.useFrame ornamentData progress None = None
  /\ (exists insts,
        OrnamentBalls.useFrame ornamentData progress (Some old) = Some insts
        /\ length insts = length ornamentData
        /\ forall i o,
           nth_error ornamentData i = Some o ->
           nth_error insts i = Some (OrnamentBalls.instanceOf progress o))
  /\ forall o : OrnamentBalls.Ornament,
     OrnamentBalls.inst_scale (OrnamentBalls.instanceOf progress o)
     = OrnamentBalls.scale o
     /\ (progress * 1.3 <= OrnamentBalls.delay o * 0.3 ->
         OrnamentBalls.inst_position (OrnamentBalls.instanceOf progress o)
         = OrnamentBalls.treePosition o)
     /\ (1 <= progress * 1.3 - OrnamentBalls.delay o * 0.3 ->
         OrnamentBalls.inst_position (OrnamentBalls.instanceOf progress o)
         = OrnamentBalls.galaxyPosition o)
     /\ (0 <= OrnamentBalls.delay o <= 1 ->
         OrnamentBalls.inst_position (OrnamentBalls.instanceOf 0 o)
         = OrnamentBalls.treePosition o
         /\ OrnamentBalls.inst_position (OrnamentBalls.instanceOf 1 o)
            = OrnamentBalls.galaxyPosition o).
Proof.
  split; [reflexivity|]. split.
  - eexists. split; [reflexivity|].
    split; [apply length_map|].
    intros i o Hi. now rewrite nth_error_map, Hi.
  - intros o. split; [reflexivity|].
    unfold OrnamentBalls.instanceOf, OrnamentBalls.localProgress.
    cbv zeta. cbn [OrnamentBalls.inst_position].
    split; [|split].
    + intros H. apply blend_at_zero, clamp_low. lra.
    + intros H. apply blend_at_one, clamp_high. lra.
    + intros H. split.
      * apply blend_at_zero, clamp_low. lra.
      * apply blend_at_one, clamp_high. lra.
Qed.

Lemma X20_ornament_witness :
  OrnamentBalls.inst_position
    (OrnamentBalls.instanceOf 0.9
       {| OrnamentBalls.treePosition := (1, 2, 3);
          OrnamentBalls.galaxyPosition := (4, 5, 6);
          OrnamentBalls.scale := 0.1; OrnamentBalls.delay := 0.5 |})
  = (4, 5, 6).
Proof.
  destruct (X20_ornament_frame [] 0.9 []) as (_ & _ & Hall).
  destruct (Hall {| OrnamentBalls.treePosition := (1, 2, 3);
                    OrnamentBalls.galaxyPosition := (4, 5, 6);
                    OrnamentBalls.scale := 0.1;
                    OrnamentBalls.delay := 0.5 |}) as (_ & _ & Hg & _).
  apply Hg. cbn. lra.
Defined.



End OrnamentsStagger.

Section TetraSpiral.

Import ParticleSystem TetrahedronSpiral.




End TetraSpiral.

(** ** The tree cone and the galaxy shell *)

Section LayoutProps.

Import ParticleSystem Layout.

Lemma Rpower_below_one (a b : R) : 0 < a < 1 -> 0 < b -> 0 < Rpower a b < 1.
Proof.
  intros [Ha0 Ha1] Hb. unfold Rpower. split; [apply exp_pos|].
  rewrite <- exp_0. apply exp_increasing.
  assert (Hln : ln a < 0).
  { rewrite <- ln_1. apply ln_increasing; assumption. }
  nra.
Qed.

Lemma pow_unit_interval (a : R) : 0 <= a < 1 -> 0 <= JsMath.pow a 0.8 < 1.
Proof.
  intros [Ha0 Ha1]. unfold JsMath.pow.
  destruct (Req_dec_T a 0) as [_|Hne]; [lra|].
  destruct (Rpower_below_one a 0.8) as [H0 H1]; lra.
Qed.

Lemma index_ratio (index total : nat) :
  (index < total)%nat -> 0 <= INR index / INR total < 1.
Proof.
  intros Hlt.
  assert (Hi : 0 <= INR index) by apply pos_INR.
  assert (Ht : INR index < INR total) by now apply lt_INR.
  assert (Hpos : 0 < INR total) by lra.
  split.
  - apply Rmult_le_pos; [exact Hi|]. apply Rlt_le. now apply Rinv_0_lt_compat.
  - apply (Rmult_lt_reg_r (INR total)); [exact Hpos|].
    unfold Rdiv. rewrite Rmult_assoc, Rinv_l by lra. lra.
Qed.

(** X23.  A tree particle lies in the shell of a cone: its height [y] is
    in [-4, 4), and with [L = 3.5 * (1 - 0.95 * (y + 4) / 8)], a radius
    between 0.175 and 3.5 that shrinks with the height, its distance from
    the axis is at least [0.7 L] and less than [L].  Particle 0 is at the
    bottom, [y = -4]. *)
Theorem X23_tree_particle_in_cone_shell
    (index total : nat) (random1 random2 : R) :
  (index < total)%nat -> 0 <= random2 < 1 ->
  let p := generateTreePosition index total random1 random2 in
  let L := 3.5 * (1 - 0.95 * (t1 p + 4) / 8) in
  -4 <= t1 p < 4
  /\ 0.175 < L <= 3.5
  /\ (0.7 * L) * (0.7 * L) <= t0 p * t0 p + t2 p * t2 p < L * L
  /\ (index = 0%nat -> t1 p = -4).
Proof.
  intros Hlt Hr p L.
  assert (Ht := pow_unit_interval _ (index_ratio index total Hlt)).
  unfold L, p, generateTreePosition, t0, t1, t2. cbv zeta. cbn [fst snd].
  set (t := JsMath.pow (INR index / INR total) 0.8) in *.
  replace (3.5 * (1 - 0.95 * (t * 8 - 8 / 2 + 4) / 8))
    with (3.5 * (1 - t * 0.95)) by lra.
  set (lay := 3.5 * (1 - t * 0.95)).
  assert (Hlay : 0.175 < lay <= 3.5) by (unfold lay; lra).
  set (an := random1 * PI * 2).
  assert (Hs := sin2_cos2_mult an).
  set (var := 0.7 + random2 * 0.3).
  assert (Hvar : 0.7 <= var < 1) by (unfold var; lra).
  replace (cos an * (lay * var) * (cos an * (lay * var))
           + sin an * (lay * var) * (sin an * (lay * var)))
    with ((sin an * sin an + cos an * cos an) * ((lay * var) * (lay * var)))
    by ring.
  rewrite Hs, Rmult_1_l.
  split; [lra|]. split; [exact Hlay|]. split.
  - assert (Hlo : 0.7 * lay <= lay * var) by nra.
    assert (Hhi : lay * var < lay) by nra.
    assert (Hp : 0 < 0.7 * lay) by lra.
    split.
    + apply Rmult_le_compat; lra.
    + apply Rmult_le_0_lt_compat; lra.
  - intros ->. unfold t, JsMath.pow. cbn [INR].
    replace (0 / INR total) with 0 by (unfold Rdiv; ring).
    destruct (Req_dec_T 0 0) as [_|Hne]; [lra|contradiction].
Qed.

Lemma X23_tree_particle_witness :
  -4 <= t1 (generateTreePosition 0 4000 0.3 0.6) < 4
  /\ t1 (generateTreePosition 0 4000 0.3 0.6) = -4.
Proof.
  destruct (X23_tree_particle_in_cone_shell 0 4000 0.3 0.6
              ltac:(lia) ltac:(lra)) as (Hy & _ & _ & Hb).
  split; [exact Hy | exact (Hb eq_refl)].
Defined.

(** A point [(r sin phi cos theta, r sin phi sin theta / 2, r cos phi)]
    is on the sphere of radius [r] flattened to half its height. *)
Lemma flattened_sphere (rad phi theta : R) :
  0 <= rad ->
  let u := rad * sin phi * cos theta in
  let v := rad * sin phi * sin theta * 0.5 in
  let w := rad * cos phi in
  u * u + (2 * v) * (2 * v) + w * w = rad * rad
  /\ rad * rad <= 4 * (u * u + v * v + w * w)
  /\ u * u + v * v + w * w <= rad * rad.
Proof.
  intros Hrad u v w.
  assert (Hp := sin2_cos2_mult phi).
  assert (Ht := sin2_cos2_mult theta).
  assert (Hell : u * u + (2 * v) * (2 * v) + w * w = rad * rad).
  { unfold u, v, w. replace 0.5 with (/ 2) by lra.
    replace (rad * sin phi * cos theta * (rad * sin phi * cos theta)
             + 2 * (rad * sin phi * sin theta * / 2)
               * (2 * (rad * sin phi * sin theta * / 2))
             + rad * cos phi * (rad * cos phi))
      with (rad * rad
            * (sin phi * sin phi * (sin theta * sin theta
                                    + cos theta * cos theta)
               + cos phi * cos phi)) by field.
    rewrite Ht, Rmult_1_r, Hp. ring. }
  split; [exact Hell|].
  assert (0 <= u * u) by nra. assert (0 <= v * v) by nra.
  assert (0 <= w * w) by nra.
  split; nra.
Qed.

(** X24.  A galaxy position lies on the ellipsoid
    [x² + (2y)² + z² = radius²] with radius [5 + 10 * random1] in
    [5, 15): no object of the galaxy is nearer than 2.5 to the centre or as
    far as 15 from it, and its height [y] stays within half the radius. *)
Theorem X24_galaxy_shell (random1 random2 random3 : R) :
  0 <= random1 < 1 ->
  let p := generateGalaxyPosition random1 random2 random3 in
  let radius := 5 + random1 * 10 in
  5 <= radius < 15
  /\ t0 p * t0 p + (2 * t1 p) * (2 * t1 p) + t2 p * t2 p = radius * radius
  /\ 2.5 * 2.5 <= t0 p * t0 p + t1 p * t1 p + t2 p * t2 p < 15 * 15
  /\ (2 * t1 p) * (2 * t1 p) <= radius * radius.
Proof.
  intros H1 p radius.
  assert (Hrad : 5 <= radius < 15) by (unfold radius; lra).
  destruct (flattened_sphere radius (acos (2 * random3 - 1))
              (random2 * PI * 2) ltac:(lra)) as (Hell & Hlo & Hhi).
  unfold p, generateGalaxyPosition, t0, t1, t2. cbv zeta. cbn [fst snd].
  fold radius.
  set (u := radius * sin (acos (2 * random3 - 1)) * cos (random2 * PI * 2))
    in *.
  set (v := radius * sin (acos (2 * random3 - 1)) * sin (random2 * PI * 2)
            * 0.5) in *.
  set (w := radius * cos (acos (2 * random3 - 1))) in *.
  split; [exact Hrad|]. split; [exact Hell|].
  assert (0 <= u * u) by nra. assert (0 <= w * w) by nra.
  split; [split; nra | nra].
Qed.

Lemma X24_galaxy_witness :
  2.5 * 2.5 <= t0 (generateGalaxyPosition 0.2 0.7 0.4)
               * t0 (generateGalaxyPosition 0.2 0.7 0.4)
             + t1 (generateGalaxyPosition 0.2 0.7 0.4)
               * t1 (generateGalaxyPosition 0.2 0.7 0.4)
             + t2 (generateGalaxyPosition 0.2 0.7 0.4)
               * t2 (generateGalaxyPosition 0.2 0.7 0.4) < 15 * 15.
Proof.
  destruct (X24_galaxy_shell 0.2 0.7 0.4 ltac:(lra)) as (_ & _ & Hd & _).
  exact Hd.
Defined.

End LayoutProps.

(** ** More on the camera filter *)

Section CameraMore.

Import THREE Scene SceneRun.

Lemma useFrame_zero (p : Props) (positionRef : Vector3) :
  useFrame p 0 positionRef = positionRef.
Proof.
  unfold useFrame, smoothFactor. cbv zeta.
  replace (- 4 * 0) with 0 by ring. rewrite exp_0.
  destruct positionRef as [px py pz]. cbn [x y z]. f_equal; ring.
Qed.

Lemma useFrame_add (p : Props) (d1 d2 : R) (positionRef : Vector3) :
  useFrame p d2 (useFrame p d1 positionRef) = useFrame p (d1 + d2) positionRef.
Proof.
  unfold useFrame, smoothFactor. cbv zeta. cbn [x y z].
  replace (- 4 * (d1 + d2)) with (- 4 * d1 + - 4 * d2) by ring.
  rewrite exp_plus.
  set (e1 := exp (- 4 * d1)). set (e2 := exp (- 4 * d2)).
  f_equal; ring.
Qed.

(** X25.  Under fixed props any sequence of frames leaves the camera
    where one frame of the total time leaves it: the position depends on
    the elapsed time only, not on how it is cut into frames. *)
Theorem X25_camera_depends_on_elapsed_time_only
    (p : Props) (deltas : list R) (positionRef : Vector3) :
  frames p deltas positionRef = useFrame p (total deltas) positionRef.
Proof.
  revert positionRef.
  induction deltas as [|delta rest IH]; intros positionRef.
  - cbn [frames total fold_right]. now rewrite useFrame_zero.
  - cbn [frames total fold_right]. rewrite IH. apply useFrame_add.
Qed.





Lemma sin_bounds_scaled (a k : R) : 0 <= k -> - k <= sin a * k <= k.
Proof.
  intros Hk. destruct (SIN_bound a) as [Hlo Hhi]. split; nra.
Qed.

(** X27.  The hand steers the camera in the galaxy state only: in the
    tree state the target is the orbit target whatever the hand position.
    The orbit target is on the circle of radius 12 (tree) or 18 (galaxy)
    around the vertical axis, at a height between -3 and 7.  A hand in the
    unit square gives a target with x in [-10, 10] and y in [-3, 7], and
    the z of the orbit. *)
Theorem X27_camera_target
    (orbit : Rotation) (hand : option Point2) (st : TreeState) :
  target {| state := tree; orbitRotation := orbit; handPosition := hand |}
  = target {| state := tree; orbitRotation := orbit; handPosition := None |}
  /\ (let tg := target {| state := st; orbitRotation := orbit;
                          handPosition := None |} in
      let d := match st with tree => 12 | galaxy => 18 end in
      x tg * x tg + z tg * z tg = d * d /\ -3 <= y tg <= 7)
  /\ (forall h, hand = Some h -> 0 <= px h <= 1 -> 0 <= py h <= 1 ->
      let tg := target {| state := galaxy; orbitRotation := orbit;
                          handPosition := hand |} in
      -10 <= x tg <= 10 /\ -3 <= y tg <= 7 /\ z tg = cos (ry orbit) * 18).
Proof.
  split; [|split].
  - unfold target. cbn [state handPosition orbitRotation].
    now destruct hand.
  - cbv zeta. unfold target, baseDistance.
    cbn [state handPosition orbitRotation x y z fst snd].
    assert (Hs := sin2_cos2_mult (ry orbit)).
    assert (Hb := sin_bounds_scaled (rx orbit) 5 ltac:(lra)).
    split; [|lra].
    destruct st.
    + replace (sin (ry orbit) * 12 * (sin (ry orbit) * 12)
               + cos (ry orbit) * 12 * (cos (ry orbit) * 12))
        with ((sin (ry orbit) * sin (ry orbit)
               + cos (ry orbit) * cos (ry orbit)) * (12 * 12)) by ring.
      rewrite Hs. ring.
    + replace (sin (ry orbit) * 18 * (sin (ry orbit) * 18)
               + cos (ry orbit) * 18 * (cos (ry orbit) * 18))
        with ((sin (ry orbit) * sin (ry orbit)
               + cos (ry orbit) * cos (ry orbit)) * (18 * 18)) by ring.
      rewrite Hs. ring.
  - intros h -> Hx Hy. cbv zeta. unfold target, baseDistance.
    cbn [state handPosition orbitRotation x y z fst snd].
    repeat split; lra.
Qed.

Lemma X27_camera_target_witness :
  -10 <= x (target {| state := galaxy;
                      orbitRotation := {| rx := 0; ry := 0 |};
                      handPosition := Some {| px := 0.25; py := 0.75 |} |})
      <= 10.
Proof.
  destruct (X27_camera_target {| rx := 0; ry := 0 |}
              (Some {| px := 0.25; py := 0.75 |}) galaxy) as (_ & _ & Hh).
  destruct (Hh {| px := 0.25; py := 0.75 |} eq_refl) as (Hx & _);
    [cbn; lra | cbn; lra | exact Hx].
Defined.

End CameraMore.

(** ** The tree star *)

Section TreeStarProps.

Import TreeStar.

Lemma pow_095_bounds (n : nat) : 0 < 0.95 ^ n <= 1.
Proof.
  induction n as [|n [IH0 IH1]]; cbn [pow]; [lra|]. split; nra.
Qed.

Lemma star_frames (state : TreeState) (isFocused : bool) (deltas : list R) :
  forall (r : Refs) (y0 : R) (s : StarMesh),
  groupRef r = Some y0 -> starRef r = Some s ->
  let r' := frames state isFocused deltas r in
  groupRef r'
  = Some (targetY state + (y0 - targetY state) * 0.95 ^ length deltas)
  /\ exists s',
       starRef r' = Some s'
       /\ star_opacity s'
          = targetOpacity state
            + (star_opacity s - targetOpacity state) * 0.95 ^ length deltas.
Proof.
  induction deltas as [|delta rest IH]; intros r y0 s Hg Hs; cbv zeta.
  - cbn [frames length pow]. split.
    + rewrite Hg. f_equal. ring.
    + exists s. split; [exact Hs|ring].
  - cbn [frames length pow].
    set (r1 := useFrame state isFocused delta r).
    assert (Hg1 : groupRef r1 = Some (y0 + (targetY state - y0) * 0.05)).
    { unfold r1, useFrame. now rewrite Hg. }
    assert (Hs1 : starRef r1
                  = Some {| star_rotation_z := star_rotation_z s + delta * 0.2;
                            star_opacity :=
                              star_opacity s
                              + (targetOpacity state - star_opacity s)
                                * 0.05 |}).
    { unfold r1, useFrame. now rewrite Hg, Hs. }
    destruct (IH r1 _ _ Hg1 Hs1) as (Hy & s' & Hs' & Ho).
    split.
    + rewrite Hy. f_equal. replace 0.95 with (1 - 0.05) by lra. ring.
    + exists s'. split; [exact Hs'|].
      rewrite Ho. cbn [star_opacity].
      replace 0.95 with (1 - 0.05) by lra. ring.
Qed.

(** X28.  The star moves by the fixed fraction 0.05 per frame, whatever
    the frame's [delta]: after [n] frames what is left of the gap between
    its height and the target height (4.4 in the tree state, 10 in the
    galaxy state) is the gap times [0.95 ^ n], and so for the opacity of
    the star and its target (1 or 0).  The height stays between where it
    started and the target, and an opacity in [0, 1] stays in [0, 1]. *)
Theorem X28_star_approaches_by_fixed_fraction
    (state : TreeState) (isFocused : bool) (deltas : list R) (r : Refs)
    (y0 : R) (s : StarMesh) :
  groupRef r = Some y0 -> starRef r = Some s ->
  let n := length deltas in
  let r' := frames state isFocused deltas r in
  exists y' s',
    groupRef r' = Some y' /\ starRef r' = Some s'
    /\ y' - targetY state = (y0 - targetY state) * 0.95 ^ n
    /\ star_opacity s' - targetOpacity state
       = (star_opacity s - targetOpacity state) * 0.95 ^ n
    /\ Rmin y0 (targetY state) <= y' <= Rmax y0 (targetY state)
    /\ (0 <= star_opacity s <= 1 -> 0 <= star_opacity s' <= 1).
Proof.
  intros Hg Hs n r'.
  destruct (star_frames state isFocused deltas r y0 s Hg Hs)
    as (Hy & s' & Hs' & Ho).
  fold r' n in Hy, Hs', Ho.
  assert (Hp := pow_095_bounds n).
  eexists. exists s'. split; [exact Hy|]. split; [exact Hs'|].
  split; [ring|]. split; [rewrite Ho; ring|]. split.
  - replace (targetY state + (y0 - targetY state) * 0.95 ^ n)
      with (y0 + (targetY state - y0) * (1 - 0.95 ^ n)) by ring.
    apply blend_between. lra.
  - intros Hop. rewrite Ho.
    assert (Ht : 0 <= targetOpacity state <= 1)
      by (destruct state; cbn; lra).
    replace (targetOpacity state
             + (star_opacity s - targetOpacity state) * 0.95 ^ n)
      with (star_opacity s
            + (targetOpacity state - star_opacity s) * (1 - 0.95 ^ n))
      by ring.
    assert (Hb := blend_between (star_opacity s) (targetOpacity state)
                    (1 - 0.95 ^ n) ltac:(lra)).
    destruct Hb as [Hlo Hhi].
    assert (0 <= Rmin (star_opacity s) (targetOpacity state))
      by (apply Rmin_glb; lra).
    assert (Rmax (star_opacity s) (targetOpacity state) <= 1)
      by (apply Rmax_lub; lra).
    lra.
Qed.

Lemma X28_star_witness :
  exists y' s',
    groupRef (frames galaxy false [0.016; 0.5; 0.016] mounted) = Some y'
    /\ starRef (frames galaxy false [0.016; 0.5; 0.016] mounted) = Some s'
    /\ y' - 10 = (4.4 - 10) * 0.95 ^ 3.
Proof.
  destruct (X28_star_approaches_by_fixed_fraction galaxy false
              [0.016; 0.5; 0.016] mounted 4.4
              {| star_rotation_z := 0; star_opacity := 1 |}
              eq_refl eq_refl)
    as (y' & s' & Hy & Hs & Hgap & _).
  exists y', s'. split; [exact Hy|]. split; [exact Hs|]. exact Hgap.
Defined.

(** X29.  The glow.  When the star is not focused the glow's opacity is
    set to 0 on every frame, whatever the glow intensity still is.  For
    [0 <= delta <= 1/3] an intensity in [0, 1] stays in [0, 1], the
    opacity is then in [0, 1] and the scale of the glow in [1, 1.7].  The
    time step is not clamped here: focused, with [delta > 1/3], an
    intensity below 1 jumps past 1. *)
Theorem X29_glow (state : TreeState) (isFocused : bool) (delta : R)
    (r : Refs) (y0 : R) (g : GlowMesh) :
  groupRef r = Some y0 -> glowRef r = Some g ->
  let r' := useFrame state isFocused delta r in
  exists g',
    glowRef r' = Some g'
    /\ (isFocused = false -> glow_opacity g' = 0)
    /\ (0 <= delta <= 1 / 3 -> 0 <= glowIntensityRef r <= 1 ->
        0 <= glowIntensityRef r' <= 1
        /\ 0 <= glow_opacity g' <= 1
        /\ 1 <= glow_scale g' <= 1.7)
    /\ (isFocused = true -> 1 / 3 < delta -> glowIntensityRef r < 1 ->
        1 < glowIntensityRef r').
Proof.
  intros Hg Hglow r'. unfold r', useFrame. rewrite Hg, Hglow.
  cbv zeta. cbn [glowRef glowIntensityRef].
  eexists. split; [reflexivity|].
  cbn [glow_opacity glow_scale].
  set (gi := glowIntensityRef r).
  set (tgt := if isFocused then 1 else 0).
  split; [|split].
  - intros ->. ring.
  - intros Hd Hgi.
    assert (Htgt : 0 <= tgt <= 1) by (unfold tgt; destruct isFocused; lra).
    assert (Hw : 0 <= delta * 3 <= 1) by lra.
    assert (Hb := blend_between gi tgt (delta * 3) Hw).
    assert (Hgi' : 0 <= gi + (tgt - gi) * delta * 3 <= 1).
    { destruct Hb as [Hlo Hhi].
      assert (0 <= Rmin gi tgt) by (apply Rmin_glb; lra).
      assert (Rmax gi tgt <= 1) by (apply Rmax_lub; lra).
      lra. }
    set (gi' := gi + (tgt - gi) * delta * 3) in *.
    split; [exact Hgi'|].
    destruct (SIN_bound ((timeRef r + delta) * 3)) as [H3lo H3hi].
    destruct (SIN_bound ((timeRef r + delta) * 2)) as [H2lo H2hi].
    split.
    + destruct isFocused; [|lra]. split; nra.
    + split; nra.
  - intros -> Hd Hgi. unfold tgt.
    replace (gi + (1 - gi) * delta * 3) with (1 + (1 - gi) * (3 * delta - 1))
      by ring.
    assert (0 < (1 - gi) * (3 * delta - 1)) by (apply Rmult_lt_0_compat; lra).
    lra.
Qed.

Lemma X29_glow_witness :
  exists g',
    glowRef (useFrame tree false 0.016 mounted) = Some g'
    /\ glow_opacity g' = 0.
Proof.
  destruct (X29_glow tree false 0.016 mounted 4.4
              {| glow_rotation_z := -0.1; glow_opacity := 0;
                 glow_scale := 1 |} eq_refl eq_refl)
    as (g' & Hg' & Hop & _).
  exists g'. split; [exact Hg' | exact (Hop eq_refl)].
Defined.


End TreeStarProps.
